(** * Geo tool servers: tile catalog and maps/geo normalisation

    A shallow embedding of [servers/tile_catalog_server.py] and
    [servers/maps_geo_server.py], followed by the properties of the
    specification that concern them.

    Conventions of the embedding.
    - A Python call either returns a value or raises: [result A].
    - Python [float] is IEEE binary64, the kernel's primitive [float];
      Python [int] is [Z]; [dict] with string keys is a [gmap string _].
    - The C library functions behind [math.tan], [math.cos] and [math.log]
      are a parameter ([Libm]); CPython's wrappers around them are modelled.
    - A tool returns the payload object it hands to [json.dumps]; the
      serialisation to text is not modelled.
    - The awaited HTTP helper ([http_get_json], [http_post_form_json]) is
      represented by its outcome, a [result pyval]. *)

From Stdlib Require Import ZArith Ascii Floats.
From stdpp Require Import base option list gmap strings pretty.

(* ===================================================================== *)
(** * Part I: definitions                                                 *)
(* ===================================================================== *)

(** ** Exceptions and results *)

(** The classes of [Exception] that the two servers can meet.
    [RequestError] stands for whatever [Exception] the HTTP helper raises
    (httpx transport and status errors, a body that is not JSON). No class
    listed here is a subclass of another one. *)
Inductive exc_class :=
  | KeyError
  | ValueError
  | TypeError
  | AttributeError
  | OverflowError
  | IndexError
  | ZeroDivisionError
  | RequestError.

Global Instance exc_class_eq_dec : EqDecision exc_class.
Proof. solve_decision. Defined.

(** An exception instance: its class and [str(e)]. *)
Record exception := Exc { exc_type : exc_class; exc_str : string }.

Inductive result (A : Type) :=
  | Return (a : A)
  | Raise (e : exception).
Arguments Return {A} a.
Arguments Raise {A} e.

Global Instance result_ret : MRet result := @Return.
Global Instance result_bind : MBind result := λ A B f m,
  match m with
  | Return a => f a
  | Raise e => Raise e
  end.

(** [try: body except (classes): handler] *)
Definition try_except {A} (body : result A) (classes : list exc_class)
    (handler : exception → result A) : result A :=
  match body with
  | Return a => Return a
  | Raise e => if bool_decide (exc_type e ∈ classes) then handler e else Raise e
  end.

(** [try: body except Exception as e: handler] *)
Definition try_except_Exception {A} (body : result A)
    (handler : exception → result A) : result A :=
  match body with
  | Return a => Return a
  | Raise e => handler e
  end.

(** ** Floats *)

Module Flt.
Local Open Scope float_scope.

(** [math.pi] *)
Definition math_pi : float := 0x1.921fb54442d18p+1.

(** [a / b] on floats *)
Definition truediv (a b : float) : result float :=
  if is_zero b then Raise (Exc ZeroDivisionError "float division by zero")
  else Return (a / b).

(** [int(f)]: truncation toward zero *)
Definition to_int (f : float) : result Z :=
  match Prim2SF f with
  | S754_nan => Raise (Exc ValueError "cannot convert float NaN to integer")
  | S754_infinity _ =>
      Raise (Exc OverflowError "cannot convert float infinity to integer")
  | S754_zero _ => Return 0%Z
  | S754_finite s m e => Return (cond_Zopp s (Z.shiftl (Z.pos m) e))
  end.

(** An [int] used where a float is expected (round to nearest even). *)
Definition of_int (n : Z) : result float :=
  let f := SF2Prim (binary_normalize prec emax n 0 false) in
  if is_infinity f
  then Raise (Exc OverflowError "int too large to convert to float")
  else Return f.

End Flt.

(** The C library's [tan], [cos] and [log] on doubles. *)
Record Libm := {
  c_tan : float → float;
  c_cos : float → float;
  c_log : float → float;
}.

Module Math.
Local Open Scope float_scope.

(** [math_1] of CPython's mathmodule.c with [can_overflow = 0]: a NaN from
    a non-NaN argument and an infinity from a finite argument are domain
    errors. *)
Definition math_1 (func : float → float) (x : float) : result float :=
  let r := func x in
  if is_nan r && negb (is_nan x) then Raise (Exc ValueError "math domain error")
  else if is_infinity r && is_finite x
  then Raise (Exc ValueError "math domain error")
  else Return r.

(** [m_log] of mathmodule.c: the C [log] is only called on finite
    positive arguments. *)
Definition m_log (clog : float → float) (x : float) : float :=
  if is_finite x then
    if 0 <? x then clog x
    else if x =? 0 then neg_infinity
    else nan
  else if is_nan x then x
  else if 0 <? x then x
  else nan.

Definition degToRad : float := Flt.math_pi / 180.

(** [math.radians] *)
Definition radians (x : float) : float := x * degToRad.

Section with_libm.
Context (libm : Libm).

Definition tan : float → result float := math_1 (c_tan libm).
Definition cos : float → result float := math_1 (c_cos libm).
Definition log : float → result float := math_1 (m_log (c_log libm)).
End with_libm.

End Math.

(** ** Python values *)

(** The values [json.loads] produces, which are also the arguments a tool
    call carries. Python strings are modelled as byte strings; iterating a
    [dict] yields its keys in the map's key order rather than in insertion
    order (no property below depends on that order). *)
#[warnings="-register-all"]
Inductive pyval :=
  | PyNone
  | PyBool (b : bool)
  | PyInt (n : Z)
  | PyFloat (f : float)
  | PyStr (s : string)
  | PyList (l : list pyval)
  | PyDict (d : gmap string pyval).

(** [for x in xs: st = body(x, st)] *)
Fixpoint for_loop {A S} (body : A → S → result S) (xs : list A) (st : S)
    : result S :=
  match xs with
  | [] => Return st
  | x :: xs' => st' ← body x st; for_loop body xs' st'
  end.

Module Py.

Definition type_name (v : pyval) : string :=
  match v with
  | PyNone => "NoneType"
  | PyBool _ => "bool"
  | PyInt _ => "int"
  | PyFloat _ => "float"
  | PyStr _ => "str"
  | PyList _ => "list"
  | PyDict _ => "dict"
  end.

Definition not_subscriptable {A} (v : pyval) : result A :=
  Raise (Exc TypeError ("'" +:+ type_name v +:+ "' object is not subscriptable")).

Definition no_attribute {A} (v : pyval) (attr : string) : result A :=
  Raise (Exc AttributeError
    ("'" +:+ type_name v +:+ "' object has no attribute '" +:+ attr +:+ "'")).

(** [bool(v)] *)
Definition truthy (v : pyval) : bool :=
  match v with
  | PyNone => false
  | PyBool b => b
  | PyInt n => negb (n =? 0)%Z
  | PyFloat f => negb (is_zero f)
  | PyStr s => negb (String.eqb s "")
  | PyList l => match l with [] => false | _ => true end
  | PyDict d => match map_to_list d with [] => false | _ => true end
  end.

(** [isinstance(v, dict)] *)
Definition is_dict (v : pyval) : bool :=
  match v with PyDict _ => true | _ => false end.

(** [v[key]] for a string key *)
Definition getitem (v : pyval) (key : string) : result pyval :=
  match v with
  | PyDict d =>
      match d !! key with
      | Some x => Return x
      | None => Raise (Exc KeyError ("'" +:+ key +:+ "'"))
      end
  | PyList _ =>
      Raise (Exc TypeError "list indices must be integers or slices, not str")
  | PyStr _ => Raise (Exc TypeError "string indices must be integers, not 'str'")
  | _ => not_subscriptable v
  end.

(** [v[0]] *)
Definition getitem0 (v : pyval) : result pyval :=
  match v with
  | PyList (x :: _) => Return x
  | PyList [] => Raise (Exc IndexError "list index out of range")
  | PyStr (String c _) => Return (PyStr (String c ""))
  | PyStr EmptyString => Raise (Exc IndexError "string index out of range")
  | PyDict _ => Raise (Exc KeyError "0")
  | _ => not_subscriptable v
  end.

(** [v.get(key, dflt)] *)
Definition get (v : pyval) (key : string) (dflt : pyval) : result pyval :=
  match v with
  | PyDict d => Return (default dflt (d !! key))
  | _ => no_attribute v "get"
  end.

(** The items a [for] loop over [v] visits. *)
Definition iter (v : pyval) : result (list pyval) :=
  match v with
  | PyList l => Return l
  | PyDict d => Return (PyStr <$> (map_to_list d).*1)
  | PyStr s => Return ((λ c, PyStr (String c "")) <$> String.list_ascii_of_string s)
  | _ => Raise (Exc TypeError ("'" +:+ type_name v +:+ "' object is not iterable"))
  end.

(** [v[:n]] *)
Definition slice_to (v n : pyval) : result pyval :=
  let stop (len : nat) : result nat :=
    match n with
    | PyNone => Return len
    | PyInt k =>
        Return (if (0 <=? k)%Z then Z.to_nat k else Z.to_nat (Z.of_nat len + k))
    | PyBool b => Return (if b then 1 else 0)%nat
    | _ =>
        Raise (Exc TypeError
          "slice indices must be integers or None or have an __index__ method")
    end in
  match v with
  | PyList l => k ← stop (length l); Return (PyList (take k l))
  | PyStr s =>
      k ← stop (String.length s); Return (PyStr (String.substring 0 k s))
  | PyDict _ => Raise (Exc TypeError "unhashable type: 'slice'")
  | _ => not_subscriptable v
  end.

(** [float(v)]; the conversion of a string is a parameter ([None] where
    Python raises [ValueError]). *)
Definition to_float (float_of_str : string → option float) (v : pyval)
    : result float :=
  match v with
  | PyFloat f => Return f
  | PyInt n => Flt.of_int n
  | PyBool b => Return (if b then 1 else 0)%float
  | PyStr s =>
      match float_of_str s with
      | Some f => Return f
      | None =>
          Raise (Exc ValueError
            ("could not convert string to float: '" +:+ s +:+ "'"))
      end
  | _ =>
      Raise (Exc TypeError
        ("float() argument must be a string or a real number, not '"
         +:+ type_name v +:+ "'"))
  end.

(** [v / b] with [b] a float *)
Definition truediv_float (v : pyval) (b : float) : result float :=
  match v with
  | PyFloat f => Flt.truediv f b
  | PyInt n => f ← Flt.of_int n; Flt.truediv f b
  | PyBool x => Flt.truediv (if x then 1 else 0)%float b
  | _ =>
      Raise (Exc TypeError
        ("unsupported operand type(s) for /: '" +:+ type_name v
         +:+ "' and 'float'"))
  end.

(** [v != s] for a string literal [s] *)
Definition ne_str (v : pyval) (s : string) : bool :=
  match v with
  | PyStr t => negb (String.eqb t s)
  | _ => true
  end.

(** [a or b] *)
Definition or_else (a b : pyval) : pyval := if truthy a then a else b.

(** [v.replace], [sep.join]: the receiver or the items must be [str]. *)
Definition as_str (v : pyval) (attr : string) : result string :=
  match v with
  | PyStr s => Return s
  | _ => no_attribute v attr
  end.

(** One item of [sep.join]: [acc] holds the items already accepted, so
    its length is the index of [p] in the sequence. *)
Definition join_item (p : pyval) (acc : list string) : result (list string) :=
  match p with
  | PyStr s => Return (acc ++ [s])
  | _ =>
      Raise (Exc TypeError
        ("sequence item " +:+ pretty (Z.of_nat (length acc))
         +:+ ": expected str instance, " +:+ type_name p +:+ " found"))
  end.

(** [sep.join(pieces)] *)
Definition join (sep : string) (pieces : list pyval) : result string :=
  strs ← for_loop join_item pieces [];
  Return (String.concat sep strs).

End Py.

(** ** Strings *)

Module Str.

(** [pat in s] *)
Fixpoint contains (pat s : string) : bool :=
  String.prefix pat s ||
  match s with
  | EmptyString => false
  | String _ s' => contains pat s'
  end.

(** Left-to-right scan of [s.replace(old, new)] for a non-empty [old]:
    [skip] counts the characters of a match still to be dropped. *)
Fixpoint replace_go (old new : string) (skip : nat) (s : string) : string :=
  match s with
  | EmptyString => EmptyString
  | String c s' =>
      match skip with
      | S k => replace_go old new k s'
      | O =>
          if String.prefix old s
          then new +:+ replace_go old new (String.length old - 1) s'
          else String c (replace_go old new 0 s')
      end
  end.

(** [s.replace("", new)]: [new] before every character and at the end. *)
Fixpoint intersperse (new s : string) : string :=
  match s with
  | EmptyString => new
  | String c s' => new +:+ String c (intersperse new s')
  end.

(** [s.replace(old, new)] *)
Definition replace (old new s : string) : string :=
  match old with
  | EmptyString => intersperse new s
  | _ => replace_go old new 0 s
  end.

End Str.

(** ** tile_catalog_server: the tile index *)

Section tile_index.
Context (libm : Libm).
Local Open Scope float_scope.

(** [2 ** zoom]: an [int] for [zoom >= 0], else the float power. *)
Definition pow2 (zoom : Z) : result (Z + float) :=
  if (0 <=? zoom)%Z then Return (inl (2 ^ zoom)%Z)
  else
    _ ← Flt.of_int zoom;
    Return (inr (SF2Prim (binary_normalize prec emax 1 zoom false))).

(** [n * f] with [n] an int or a float *)
Definition num_mul (n : Z + float) (f : float) : result float :=
  match n with
  | inl k => nf ← Flt.of_int k; Return (nf * f)
  | inr nf => Return (nf * f)
  end.

(** The local [x_tile] of [lat_lon_to_tile_indices]. *)
Definition x_tile (lon_deg : float) (n : Z + float) : result float :=
  num_mul n ((lon_deg + 180) / 360).

(** The local [y_tile] of [lat_lon_to_tile_indices]. *)
Definition y_tile (lat_deg : float) (n : Z + float) : result float :=
  let lat_rad := Math.radians lat_deg in
  t ← Math.tan libm lat_rad;
  c ← Math.cos libm lat_rad;
  sec ← Flt.truediv 1 c;
  l ← Math.log libm (t + sec);
  q ← Flt.truediv l Flt.math_pi;
  a ← num_mul n (1 - q);
  Flt.truediv a 2.

Definition lat_lon_to_tile_indices (lat_deg lon_deg : float) (zoom : Z)
    : result (Z * Z) :=
  n ← pow2 zoom;
  xt ← x_tile lon_deg n;
  yt ← y_tile lat_deg n;
  x ← Flt.to_int xt;
  y ← Flt.to_int yt;
  Return (x, y).
End tile_index.

(** The values glibc 2.36 returns, in binary64, at the arguments the
    examples below reach (latitudes 0, 33.895, 90 and -90 degrees). The
    table is not a model of the library elsewhere: other arguments give
    NaN, and nothing is concluded from them. *)
Definition glibc_tan (x : float) : float :=
  if Leibniz.eqb x 0 then 0
  else if Leibniz.eqb x 0x1.2ee37d122a060p-1 then 0x1.57fc206f243bdp-1
  else if Leibniz.eqb x 0x1.921fb54442d18p+0 then 0x1.d02967c31cdb5p+53
  else if Leibniz.eqb x (-0x1.921fb54442d18p+0) then (-0x1.d02967c31cdb5p+53)
  else nan.

Definition glibc_cos (x : float) : float :=
  if Leibniz.eqb x 0 then 1
  else if Leibniz.eqb x 0x1.2ee37d122a060p-1 then 0x1.a8fdbfd979e96p-1
  else if Leibniz.eqb x 0x1.921fb54442d18p+0 then 0x1.1a62633145c07p-54
  else if Leibniz.eqb x (-0x1.921fb54442d18p+0) then 0x1.1a62633145c07p-54
  else nan.

Definition glibc_log (x : float) : float :=
  if Leibniz.eqb x 1 then 0
  else if Leibniz.eqb x 0x1.e0674d1e63d9ap+0 then 0x1.424722cb2baadp-1
  else if Leibniz.eqb x 0x1.d02967c31cdb5p+54 then 0x1.303334f80713cp+5
  else nan.

Definition glibc : Libm :=
  {| c_tan := glibc_tan; c_cos := glibc_cos; c_log := glibc_log |}.

(** 33.895 and 35.478 as Python reads them. *)
Definition lat_hamra : float := 0x1.0f28f5c28f5c3p+5.
Definition lon_hamra : float := 0x1.1bd2f1a9fbe77p+5.

(** ** tile_catalog_server: the provider catalog and the URL templates *)

Definition TILE_PROVIDERS : gmap string (gmap string pyval) :=
  {[ "OpenStreetMap.Mapnik" :=
       {[ "urlTemplate" :=
            PyStr "https://{s}.tile.openstreetmap.org/{z}/{x}/{y}.png";
          "subdomains" := PyList [PyStr "a"; PyStr "b"; PyStr "c"];
          "attribution" := PyStr "© OpenStreetMap contributors";
          "description" := PyStr "Standard OSM raster tiles (Mapnik style)." ]} ]}.

Definition get_provider_info (provider : string)
    : result (gmap string pyval) :=
  match TILE_PROVIDERS !! provider with
  | None => Raise (Exc ValueError ("Unknown tile provider: " +:+ provider))
  | Some info => Return info
  end.

(** What the tools pass for [z], [x] and [y]: a tile index, or a string
    ([getMapLibreStyle] passes the placeholder itself). *)
Inductive tile_arg :=
  | TInt (n : Z)
  | TStr (s : string).

(** [str(a)] *)
Definition str (a : tile_arg) : string :=
  match a with
  | TInt n => pretty n
  | TStr s => s
  end.

Definition tile_arg_val (a : tile_arg) : pyval :=
  match a with
  | TInt n => PyInt n
  | TStr s => PyStr s
  end.

Definition build_tile_url_from_template (template : string)
    (z x y : tile_arg) (subdomain : option string) : string :=
  let url :=
    Str.replace "{y}" (str y)
      (Str.replace "{x}" (str x) (Str.replace "{z}" (str z) template)) in
  if Str.contains "{s}" url
  then Str.replace "{s}" (default "a" subdomain) url
  else url.

Definition getProviderTileUrl (provider : string) (z x y : tile_arg)
    (subdomain : option string) : result pyval :=
  info ← get_provider_info provider;
  template ← Py.getitem (PyDict info) "urlTemplate";
  t ← Py.as_str template "replace";
  let url := build_tile_url_from_template t z x y subdomain in
  Return (PyDict
    {[ "provider" := PyStr provider;
       "z" := tile_arg_val z;
       "x" := tile_arg_val x;
       "y" := tile_arg_val y;
       "url" := PyStr url;
       "attribution" := default PyNone (info !! "attribution");
       "description" := default PyNone (info !! "description") ]}).

Definition getMapLibreStyle (provider : string)
    (centerLat centerLon zoom : pyval) : result pyval :=
  info ← get_provider_info provider;
  template ← Py.getitem (PyDict info) "urlTemplate";
  t ← Py.as_str template "replace";
  let tile_url :=
    build_tile_url_from_template t (TStr "{z}") (TStr "{x}") (TStr "{y}")
      (Some "a") in
  Return (PyDict
    {[ "version" := PyInt 8;
       "name" := PyStr (provider +:+ " basemap");
       "sources" := PyDict
         {[ "basemap" := PyDict
              {[ "type" := PyStr "raster";
                 "tiles" := PyList [PyStr tile_url];
                 "tileSize" := PyInt 256;
                 "attribution" := default PyNone (info !! "attribution") ]} ]};
       "layers" := PyList
         [PyDict {[ "id" := PyStr "basemap";
                    "type" := PyStr "raster";
                    "source" := PyStr "basemap" ]}];
       "center" := PyList [centerLon; centerLat];
       "zoom" := zoom ]}).

(** The tile URL list of a style document: [style["sources"]["basemap"]["tiles"]]. *)
Definition style_tiles (style : pyval) : result pyval :=
  sources ← Py.getitem style "sources";
  basemap ← Py.getitem sources "basemap";
  Py.getitem basemap "tiles".

(** What a map client does with a style's tile URL for the tile [(z, x, y)]. *)
Definition fill_tile_url (tile_url : string) (z x y : Z) : string :=
  Str.replace "{y}" (pretty y)
    (Str.replace "{x}" (pretty x) (Str.replace "{z}" (pretty z) tile_url)).

(** ** maps_geo_server *)

Section geocode.
(** Python's conversion of a string to a float. *)
Context (float_of_str : string → option float).

(** One turn of the loop of [geocodeAddress]; [None] is its [continue]. *)
Definition geocode_item (item : pyval) (results : list pyval)
    : result (list pyval) :=
  parsed ← try_except
    (lat ← (v ← Py.getitem item "lat"; Py.to_float float_of_str v);
     lon ← (v ← Py.getitem item "lon"; Py.to_float float_of_str v);
     Return (Some (lat, lon)))
    [KeyError; ValueError]
    (λ _, Return None);
  match parsed with
  | None => Return results
  | Some (lat, lon) =>
      display_name ← Py.get item "display_name" PyNone;
      type ← Py.get item "type" PyNone;
      class ← Py.get item "class" PyNone;
      Return (results ++
        [PyDict {[ "displayName" := display_name;
                   "lat" := PyFloat lat;
                   "lon" := PyFloat lon;
                   "type" := type;
                   "class" := class ]}])
  end.

Definition geocodeAddress (query limit : pyval) (upstream : result pyval)
    : result pyval :=
  raw_results ← upstream;
  items ← Py.iter raw_results;
  results ← for_loop geocode_item items [];
  Return (PyDict {[ "query" := query; "results" := PyList results ]}).
End geocode.

(** One turn of the loop of [searchPois]. *)
Definition poi_item (el : pyval) (pois : list pyval) : result (list pyval) :=
  type ← Py.get el "type" PyNone;
  if Py.ne_str type "node" then Return pois
  else
    tags ← Py.get el "tags" (PyDict ∅);
    name ← Py.get tags "name" PyNone;
    amenity ← Py.get tags "amenity" PyNone;
    lat ← Py.get el "lat" PyNone;
    lon ← Py.get el "lon" PyNone;
    Return (pois ++
      [PyDict {[ "name" := name;
                 "amenity" := amenity;
                 "lat" := lat;
                 "lon" := lon ]}]).

(** [except Exception as e] takes every [exception] of the model. *)
Definition searchPois (keyword lat lon radiusM maxResults : pyval)
    (upstream : result pyval) : result pyval :=
  match upstream with
  | Raise e =>
      Return (PyDict
        {[ "center" := PyDict {[ "lat" := lat; "lon" := lon ]};
           "search" := PyDict {[ "keyword" := keyword; "radiusM" := radiusM ]};
           "results" := PyList [];
           "error" := PyStr ("Overpass request failed: " +:+ exc_str e) ]})
  | Return raw =>
      elements ←
        (if Py.is_dict raw then Py.get raw "elements" (PyList [])
         else Return (PyList []));
      head ← Py.slice_to elements maxResults;
      items ← Py.iter head;
      pois ← for_loop poi_item items [];
      Return (PyDict
        {[ "center" := PyDict {[ "lat" := lat; "lon" := lon ]};
           "search" := PyDict {[ "keyword" := keyword; "radiusM" := radiusM ]};
           "results" := PyList pois ]})
  end.

(** The inner loop of [basicRoute]: one step of a leg. *)
Definition route_step (step : pyval) (steps : list pyval)
    : result (list pyval) :=
  maneuver ← Py.get step "maneuver" (PyDict ∅);
  name ← Py.get step "name" PyNone;
  let instruction := Py.or_else name (PyStr "") in
  modifier ← Py.get maneuver "modifier" PyNone;
  step_type ← Py.get maneuver "type" PyNone;
  let pieces := List.filter Py.truthy [step_type; modifier; instruction] in
  summary ← Py.join " - " pieces;
  Return (steps ++ [PyStr summary]).

(** The outer loop of [basicRoute]: one leg of the route. *)
Definition route_leg (leg : pyval) (steps : list pyval)
    : result (list pyval) :=
  leg_steps ← Py.get leg "steps" (PyList []);
  items ← Py.iter leg_steps;
  for_loop route_step items steps.

(** [steps] as [basicRoute] builds it from the first route. *)
Definition route_steps (route : pyval) : result (list pyval) :=
  legs ← Py.get route "legs" (PyList []);
  items ← Py.iter legs;
  for_loop route_leg items [].

Definition basicRoute (startLat startLon endLat endLon profile : pyval)
    (upstream : result pyval) : result pyval :=
  data ← upstream;
  routes ←
    (if Py.is_dict data then Py.get data "routes" (PyList [])
     else Return (PyList []));
  if negb (Py.truthy routes) then
    Return (PyDict
      {[ "error" := PyStr "No route found";
         "start" := PyDict {[ "lat" := startLat; "lon" := startLon ]};
         "end" := PyDict {[ "lat" := endLat; "lon" := endLon ]} ]})
  else
    route ← Py.getitem0 routes;
    distance ← Py.get route "distance" (PyInt 0);
    distance_km ← Py.truediv_float distance 1000;
    duration ← Py.get route "duration" (PyInt 0);
    duration_min ← Py.truediv_float duration 60;
    steps ← route_steps route;
    Return (PyDict
      {[ "start" := PyDict {[ "lat" := startLat; "lon" := startLon ]};
         "end" := PyDict {[ "lat" := endLat; "lon" := endLon ]};
         "profile" := profile;
         "distanceKm" := PyFloat distance_km;
         "durationMin" := PyFloat duration_min;
         "steps" := PyList steps ]}).

(** ** The remaining tools of the two servers *)

(** [listTileProviders]: one summary per catalog entry. *)
Definition provider_summary (entry : string * gmap string pyval) : pyval :=
  PyDict
    {[ "name" := PyStr entry.1;
       "urlTemplate" := default PyNone (entry.2 !! "urlTemplate");
       "description" := default PyNone (entry.2 !! "description");
       "attribution" := default PyNone (entry.2 !! "attribution");
       "subdomains" := default PyNone (entry.2 !! "subdomains") ]}.

Definition listTileProviders : pyval :=
  PyDict
    {[ "providers" := PyList (provider_summary <$> map_to_list TILE_PROVIDERS) ]}.

(** [getOsmTileUrl]: ["https://tile.openstreetmap.org/%s/%s/%s.png" % (z, x, y)];
    the tool returns the URL itself, not a payload. *)
Definition getOsmTileUrl (z x y : tile_arg) : string :=
  "https://tile.openstreetmap.org/" +:+ str z +:+ "/" +:+ str x +:+ "/"
  +:+ str y +:+ ".png".

Definition latLonToTile (libm : Libm) (lat lon : float) (zoom : Z)
    : result pyval :=
  xy ← lat_lon_to_tile_indices libm lat lon zoom;
  Return (PyDict {[ "z" := PyInt zoom; "x" := PyInt xy.1; "y" := PyInt xy.2 ]}).

(** [address.get("city") or address.get("town") or address.get("village")] *)
Definition address_city (address : pyval) : result pyval :=
  city ← Py.get address "city" PyNone;
  if Py.truthy city then Return city
  else
    town ← Py.get address "town" PyNone;
    if Py.truthy town then Return town
    else Py.get address "village" PyNone.

Definition reverseGeocode (lat lon : pyval) (upstream : result pyval)
    : result pyval :=
  data ← upstream;
  address ←
    (if Py.is_dict data then Py.get data "address" (PyDict ∅)
     else Return (PyDict ∅));
  display_name ← Py.get data "display_name" PyNone;
  road ← Py.get address "road" PyNone;
  neighbourhood ← Py.get address "neighbourhood" PyNone;
  suburb ← Py.get address "suburb" PyNone;
  city ← address_city address;
  state ← Py.get address "state" PyNone;
  postcode ← Py.get address "postcode" PyNone;
  country ← Py.get address "country" PyNone;
  Return (PyDict
    {[ "lat" := lat;
       "lon" := lon;
       "displayName" := display_name;
       "address" := PyDict
         {[ "road" := road;
            "neighbourhood" := neighbourhood;
            "suburb" := suburb;
            "city" := city;
            "state" := state;
            "postcode" := postcode;
            "country" := country ]} ]}).

(** ** Vocabulary of the statements *)

(** Every character of [s] satisfies [p]. *)
Fixpoint str_forall (p : ascii → bool) (s : string) : bool :=
  match s with
  | EmptyString => true
  | String c s' => p c && str_forall p s'
  end.

(** The characters of the decimal notation of an integer. *)
Definition decimal_char (c : ascii) : bool :=
  bool_decide (c ∈ String.list_ascii_of_string "0123456789-").

(** [s] has none of the characters of the token [{s}]. *)
Definition token_free (s : string) : bool :=
  str_forall (λ c, bool_decide (c ∉ String.list_ascii_of_string "{s}")) s.

(** The tile arguments the specification allows: an integer, or the
    literal placeholder of the argument's own token. *)
Definition coordinate_arg (placeholder : string) (a : tile_arg) : Prop :=
  match a with
  | TInt _ => True
  | TStr s => s = placeholder
  end.

(** A JSON number that Python can use as a float operand: a float, a
    bool, or an int within the range of binary64. *)
Definition real_number (v : pyval) : Prop :=
  match v with
  | PyFloat _ | PyBool _ => True
  | PyInt n => ∃ f, Flt.of_int n = Return f
  | _ => False
  end.

(** The float that the int [2 ** zoom] becomes in [n * ...]. *)
Definition two_pow (zoom : Z) : float :=
  SF2Prim (binary_normalize prec emax (2 ^ zoom) 0 false).

(** [two_pow zoom] is the finite float of mantissa [2^52] and exponent
    [zoom - 52]: checked by evaluation for each [zoom] of [0..1023]. *)
Definition two_pow_ok (zoom : Z) : bool :=
  negb (is_infinity (two_pow zoom)) &&
  match binary_normalize prec emax (2 ^ zoom) 0 false with
  | S754_finite false m e =>
      (Z.pos m =? 2 ^ 52)%Z && (e =? zoom - 52)%Z
      && valid_binary (S754_finite false m e)
  | _ => false
  end.

(** What [y_tile] needs of the three library values [t = tan(lat_rad)],
    [c = cos(lat_rad)] and [l = log(t + 1/c)] to go through. *)
Definition mercator_values_ok (t c l : float) : bool :=
  (is_finite t && is_finite c && negb (is_zero c)
   && is_finite (t + 1 / c) && (0 <? t + 1 / c) && is_finite l)%float.

(** The library values at latitude 90 degrees ([lat_rad] is the double
    nearest to pi/2). *)
Definition tan_pole : float := 0x1.d02967c31cdb5p+53.
Definition cos_pole : float := 0x1.1a62633145c07p-54.
Definition log_pole : float := 0x1.303334f80713cp+5.

(** [int(y_tile)] at latitude 90 is negative: checked by evaluation for
    each [zoom] of [0..1020]. *)
Definition pole_y_negative (zoom : Z) : bool :=
  match Flt.to_int (two_pow zoom * (1 - log_pole / Flt.math_pi) / 2)%float with
  | Return y => (y <? 0)%Z
  | Raise _ => false
  end.

(** The largest double below 180: a longitude from it upward makes
    [lon + 180.0] round to [360.0]. *)
Definition lon_limit : float := 0x1.67fffffffffffp+7.

(** [math.pi] less two units in the last place: a logarithm from
    [-math.pi + ulp] downward makes [1.0 - l / math.pi] round to [2.0]. *)
Definition mercator_limit : float := 0x1.921fb54442d16p+1.

(** *** Values of floats as integers

    [weight m e] is [m * 2^e] scaled by [2^4400], an integer for every
    exponent that the binary64 operations meet. *)
Definition weight (m e : Z) : Z := (m * 2 ^ (e + 4400))%Z.

(** The round and sticky bits of a shifted mantissa. *)
Definition inexact (x : shr_record) : bool := shr_r x || shr_s x.

(** [y] is [x] shifted right by [n] bits: the mantissa is the quotient,
    and bits are recorded as lost only if some were, before or now. *)
Definition shr_rel (n : Z) (x y : shr_record) : Prop :=
  (0 ≤ shr_m y
   ∧ shr_m y * 2 ^ n ≤ shr_m x < (shr_m y + 1) * 2 ^ n
   ∧ (inexact y = true → inexact x = true ∨ shr_m y * 2 ^ n < shr_m x))%Z.

(** [x] is a zero or a finite float of sign [s] whose magnitude is at
    most that of the float of mantissa [mb] and exponent [eb]. *)
Definition rounded (s : bool) (mb : positive) (eb : Z) (x : spec_float)
    : Prop :=
  match x with
  | S754_zero s' => s' = s
  | S754_finite s' m e =>
      s' = s ∧ (weight (Z.pos m) e ≤ weight (Z.pos mb) eb)%Z
  | _ => False
  end.

(** *** Upstream records as the services document them *)

(** A coordinate field that is a string or a float; [None] where
    [geocodeAddress] skips the entry. *)
Definition parse_coordinate (float_of_str : string → option float)
    (field : option pyval) : option float :=
  match field with
  | Some (PyStr s) => float_of_str s
  | Some (PyFloat f) => Some f
  | _ => None
  end.

(** The result [geocodeAddress] keeps for an entry, if any. *)
Definition geocode_entry (float_of_str : string → option float)
    (item : pyval) : option pyval :=
  match item with
  | PyDict d =>
      lat ← parse_coordinate float_of_str (d !! "lat");
      lon ← parse_coordinate float_of_str (d !! "lon");
      Some (PyDict
        {[ "displayName" := default PyNone (d !! "display_name");
           "lat" := PyFloat lat;
           "lon" := PyFloat lon;
           "type" := default PyNone (d !! "type");
           "class" := default PyNone (d !! "class") ]})
  | _ => None
  end.

Definition coordinate_field_ok (field : option pyval) : Prop :=
  match field with
  | None | Some (PyStr _) | Some (PyFloat _) => True
  | _ => False
  end.

(** An entry of the geocoding service: an object whose [lat] and [lon],
    when present, are strings or floats. *)
Definition geocode_item_ok (item : pyval) : Prop :=
  match item with
  | PyDict d => coordinate_field_ok (d !! "lat") ∧ coordinate_field_ok (d !! "lon")
  | _ => False
  end.

(** The tags of an element, [{}] when it has none. *)
Definition element_tags (el : gmap string pyval) : gmap string pyval :=
  match el !! "tags" with
  | Some (PyDict tags) => tags
  | _ => ∅
  end.

(** [el.get("type") == "node"] *)
Definition is_node (el : gmap string pyval) : bool :=
  match el !! "type" with
  | Some (PyStr s) => String.eqb s "node"
  | _ => false
  end.

(** The result [searchPois] keeps for an element, if any. *)
Definition poi_entry (el : pyval) : option pyval :=
  match el with
  | PyDict d =>
      if is_node d then
        Some (PyDict
          {[ "name" := default PyNone (element_tags d !! "name");
             "amenity" := default PyNone (element_tags d !! "amenity");
             "lat" := default PyNone (d !! "lat");
             "lon" := default PyNone (d !! "lon") ]})
      else None
  | _ => None
  end.

(** An element of the spatial-query service: an object; a node's [tags],
    when present, is an object. *)
Definition element_ok (el : pyval) : Prop :=
  match el with
  | PyDict d =>
      is_node d = true →
      match d !! "tags" with
      | None | Some (PyDict _) => True
      | _ => False
      end
  | _ => False
  end.

(** A response without elements: not an object, or an object without the
    [elements] key. *)
Definition response_elements_missing (raw : pyval) : Prop :=
  match raw with
  | PyDict d => d !! "elements" = None
  | _ => True
  end.

(** [maxResults] as a slice bound: an int or [None]. *)
Definition slice_bound (n : pyval) : Prop :=
  match n with
  | PyNone | PyInt _ => True
  | _ => False
  end.

(** A text field of a step: absent, [null] or a string. *)
Definition text_field_ok (field : option pyval) : Prop :=
  match field with
  | None | Some PyNone | Some (PyStr _) => True
  | _ => False
  end.

(** The piece a text field contributes to a step summary. *)
Definition piece (field : option pyval) : list string :=
  match field with
  | Some (PyStr s) => if String.eqb s "" then [] else [s]
  | _ => []
  end.

Definition step_maneuver (step : gmap string pyval) : gmap string pyval :=
  match step !! "maneuver" with
  | Some (PyDict m) => m
  | _ => ∅
  end.

(** ["type - modifier - name"], empty pieces left out. *)
Definition step_summary (step : pyval) : string :=
  match step with
  | PyDict s =>
      String.concat " - "
        ([step_maneuver s !! "type"; step_maneuver s !! "modifier";
          s !! "name"] ≫= piece)
  | _ => ""
  end.

Definition step_ok (step : pyval) : Prop :=
  match step with
  | PyDict s =>
      text_field_ok (s !! "name")
      ∧ match s !! "maneuver" with
        | None => True
        | Some (PyDict m) =>
            text_field_ok (m !! "type") ∧ text_field_ok (m !! "modifier")
        | _ => False
        end
  | _ => False
  end.

(** The steps of a leg, [[]] when it has none. *)
Definition leg_steps (leg : pyval) : list pyval :=
  match leg with
  | PyDict l =>
      match l !! "steps" with
      | Some (PyList steps) => steps
      | _ => []
      end
  | _ => []
  end.

Definition leg_ok (leg : pyval) : Prop :=
  match leg with
  | PyDict l =>
      match l !! "steps" with
      | None => True
      | Some (PyList steps) => Forall step_ok steps
      | _ => False
      end
  | _ => False
  end.

(** The routes a routing response carries, as [basicRoute] reads them. *)
Definition response_routes (data : pyval) : pyval :=
  match data with
  | PyDict d => default (PyList []) (d !! "routes")
  | _ => PyList []
  end.

(** The [city] of a reverse-geocoding result: the first of [city], [town],
    [village] that is truthy, else whatever [village] holds. *)
Definition city_of (address : gmap string pyval) : pyval :=
  Py.or_else
    (Py.or_else (default PyNone (address !! "city"))
                (default PyNone (address !! "town")))
    (default PyNone (address !! "village")).

(** The address of a reverse-geocoding response, [{}] when it has none. *)
Definition response_address (data : gmap string pyval) : gmap string pyval :=
  match data !! "address" with
  | Some (PyDict a) => a
  | _ => ∅
  end.

(** The summaries [listTileProviders] returns. *)
Definition listed_providers : list pyval :=
  match listTileProviders with
  | PyDict d =>
      match d !! "providers" with
      | Some (PyList l) => l
      | _ => []
      end
  | _ => []
  end.

(** [int(x_tile)] at longitude 180 is [2^zoom] and at longitude -180 is 0:
    checked by evaluation for each [zoom] of [0..1023]. *)
Definition antimeridian_ok (zoom : Z) : bool :=
  match x_tile 180 (inl (2 ^ zoom)%Z) ≫= Flt.to_int,
        x_tile (-180) (inl (2 ^ zoom)%Z) ≫= Flt.to_int with
  | Return east, Return west => (east =? 2 ^ zoom)%Z && (west =? 0)%Z
  | _, _ => false
  end.

(** Every character of [s] differs from [c]. *)
Definition char_free (c : ascii) (s : string) : bool :=
  str_forall (λ c', bool_decide (c' ≠ c)) s.

(** [d] uses none of the characters of [chars]. *)
Definition avoids (chars d : string) : bool :=
  str_forall (λ c, bool_decide (c ∉ String.list_ascii_of_string chars)) d.

(** The four tokens of a tile URL template. *)
Definition placeholders : list string := ["{z}"; "{x}"; "{y}"; "{s}"].

(** A subdomain that cannot be mistaken for part of a placeholder: absent
    (the default [a]), or non-empty text without braces and without the
    letters of the four tokens. The catalog's [a], [b], [c] are such. *)
Definition plain_subdomain (subdomain : option string) : Prop :=
  match subdomain with
  | None => True
  | Some s => s ≠ "" ∧ avoids "{zxys}" s = true
  end.

(* ===================================================================== *)
(** * Part II: properties                                                 *)
(* ===================================================================== *)

(** ** String replacement *)

Section string_lemmas.
Implicit Types (old new s t d : string) (c : ascii).
Local Arguments String.append !_ _ / : simpl nomatch.

Lemma str_length_app s t :
  String.length (s +:+ t) = String.length s + String.length t.
Proof. induction s; simpl; by f_equal. Qed.

Lemma prefix_append old s : String.prefix old (old +:+ s) = true.
Proof.
  induction old as [|c old IH]; simpl; [by destruct s|].
  by destruct (ascii_dec c c).
Qed.

Lemma prefix_cons_true a old c s :
  String.prefix (String a old) (String c s) = true →
  a = c ∧ String.prefix old s = true.
Proof. cbn [String.prefix]. by destruct (ascii_dec a c). Qed.

Lemma prefix_split old s :
  String.prefix old s = true → ∃ t, s = old +:+ t.
Proof.
  revert s. induction old as [|c old IH]; intros s H; [by exists s|].
  destruct s as [|c' s]; [done|]. simpl in H.
  destruct (ascii_dec c c') as [->|]; [|done].
  destruct (IH _ H) as [t ->]. by exists t.
Qed.

Lemma replace_go_skip old new u s :
  Str.replace_go old new (String.length u) (u +:+ s)
  = Str.replace_go old new 0 s.
Proof. induction u as [|c u IH]; [done|]. simpl. apply IH. Qed.

(** The two equations of the scan. *)
Lemma replace_go_match old new s :
  old ≠ "" →
  Str.replace_go old new 0 (old +:+ s) = new +:+ Str.replace_go old new 0 s.
Proof.
  destruct old as [|c old]; [done|]. intros _.
  pose proof (prefix_append (String c old) s) as Hp.
  simpl in *. rewrite Hp, Nat.sub_0_r. apply (f_equal (String.append new)).
  apply replace_go_skip.
Qed.

Lemma replace_go_keep old new c s :
  String.prefix old (String c s) = false →
  Str.replace_go old new 0 (String c s)
  = String c (Str.replace_go old new 0 s).
Proof. intros H. cbn [Str.replace_go]. by rewrite H. Qed.

Lemma str_forall_impl (p q : ascii → bool) s :
  (∀ c, p c = true → q c = true) →
  str_forall p s = true → str_forall q s = true.
Proof.
  intros Hpq. induction s as [|c s IH]; simpl; [done|].
  rewrite !andb_true_iff. intros [??]. auto.
Qed.

(** A stretch of text without the first character of [old] is copied. *)
Lemma replace_go_through a old new d s :
  str_forall (λ c, bool_decide (c ≠ a)) d = true →
  Str.replace_go (String a old) new 0 (d +:+ s)
  = d +:+ Str.replace_go (String a old) new 0 s.
Proof.
  induction d as [|c d IH]; simpl; [done|].
  rewrite andb_true_iff, bool_decide_eq_true. intros [Hc Hd].
  destruct (ascii_dec a c) as [->|]; [done|]. by rewrite IH.
Qed.

Lemma contains_through a pat d s :
  str_forall (λ c, bool_decide (c ≠ a)) d = true →
  Str.contains (String a pat) (d +:+ s) = Str.contains (String a pat) s.
Proof.
  induction d as [|c d IH]; simpl; [done|].
  rewrite andb_true_iff, bool_decide_eq_true. intros [Hc Hd].
  destruct (ascii_dec a c) as [->|]; [done|]. by rewrite IH.
Qed.

Lemma contains_prefix pat s :
  String.prefix pat s = true → Str.contains pat s = true.
Proof. intros H. destruct s; simpl in *; by rewrite H. Qed.

Lemma contains_cons pat c s :
  Str.contains pat s = true → Str.contains pat (String c s) = true.
Proof. intros H. cbn [Str.contains]. rewrite H. apply orb_true_r. Qed.

Lemma contains_append pat u s :
  Str.contains pat s = true → Str.contains pat (u +:+ s) = true.
Proof. induction u; simpl; [done|]. intros. by rewrite IHu, orb_true_r. Qed.

(** Replacing a token by itself changes nothing. *)
Lemma replace_go_same old s :
  old ≠ "" → Str.replace_go old old 0 s = s.
Proof.
  intros Hold. remember (String.length s) as n eqn:Hn.
  revert s Hn. induction (lt_wf n) as [n _ IH]. intros s ->.
  destruct s as [|c s]; [done|].
  destruct (String.prefix old (String c s)) eqn:Hp.
  - destruct (prefix_split _ _ Hp) as [t Ht]. rewrite Ht.
    rewrite replace_go_match by done. f_equal.
    apply (IH (String.length t)); [|done].
    rewrite Ht, str_length_app. destruct old; [done|simpl; lia].
  - rewrite replace_go_keep by done. f_equal.
    apply (IH (String.length s)); [simpl; lia|done].
Qed.

(** How the output of a replacement starts. *)
Lemma replace_go_head old new t :
  old ≠ "" →
  t = "" ∨ (∃ u, Str.replace_go old new 0 t = new +:+ u)
  ∨ (∃ c t', t = String c t'
       ∧ Str.replace_go old new 0 t = String c (Str.replace_go old new 0 t')).
Proof.
  intros Hold. destruct t as [|c t]; [by left|right].
  destruct (String.prefix old (String c t)) eqn:Hp.
  - left. destruct (prefix_split _ _ Hp) as [u ->].
    rewrite replace_go_match by done. eauto.
  - right. exists c, t. by rewrite replace_go_keep.
Qed.

Lemma token_free_first_char d :
  token_free d = true →
  str_forall (λ c, bool_decide (c ≠ "{"%char)) d = true.
Proof.
  apply str_forall_impl. intros c. rewrite !bool_decide_eq_true.
  intros Hc ->. apply Hc. simpl. set_solver.
Qed.

Lemma token_free_head c d :
  token_free (String c d) = true →
  c ≠ "{"%char ∧ c ≠ "s"%char ∧ c ≠ "}"%char.
Proof.
  unfold token_free. simpl. rewrite andb_true_iff, bool_decide_eq_true.
  intros [Hc _]. set_solver.
Qed.

(** A replacement by token-free, non-empty text creates no [{s}]. *)
Lemma contains_replace_go old d t :
  old ≠ "" → d ≠ "" → token_free d = true →
  Str.contains "{s}" (Str.replace_go old d 0 t) = true →
  Str.contains "{s}" t = true.
Proof.
  intros Hold Hd Hfree. destruct d as [|d0 d']; [done|].
  destruct (token_free_head _ _ Hfree) as (Hd1 & Hd2 & Hd3).
  remember (String.length t) as n eqn:Hn.
  revert t Hn. induction (lt_wf n) as [n _ IH]. intros t -> Hc.
  destruct t as [|c t]; [done|].
  destruct (String.prefix old (String c t)) eqn:Hp.
  { destruct (prefix_split _ _ Hp) as [u Hu]. rewrite Hu in Hc |- *.
    rewrite replace_go_match in Hc by done.
    rewrite contains_through in Hc by by apply token_free_first_char.
    apply contains_append, (IH (String.length u)); [|done..].
    rewrite Hu, str_length_app. destruct old; [done|simpl; lia]. }
  rewrite replace_go_keep in Hc by done.
  cbn [Str.contains] in Hc. apply orb_true_iff in Hc as [Hc|Hc]; cycle 1.
  { apply contains_cons, (IH (String.length t)); [simpl; lia|done..]. }
  apply prefix_cons_true in Hc as [<- Hc].
  destruct (replace_go_head old (String d0 d') t Hold)
    as [->|[[u Hu]|(c2 & t2 & -> & Hu)]]; [done|..]; rewrite Hu in Hc.
  { change (String d0 d' +:+ u) with (String d0 (d' +:+ u)) in Hc.
    by apply prefix_cons_true in Hc as [? _]. }
  apply prefix_cons_true in Hc as [<- Hc].
  destruct (replace_go_head old (String d0 d') t2 Hold)
    as [->|[[u Hu2]|(c3 & t3 & -> & Hu2)]]; [done|..]; rewrite Hu2 in Hc.
  { change (String d0 d' +:+ u) with (String d0 (d' +:+ u)) in Hc.
    by apply prefix_cons_true in Hc as [? _]. }
  apply prefix_cons_true in Hc as [<- Hc].
  apply contains_prefix. cbn [String.prefix].
  repeat (destruct (ascii_dec _ _); [|done]). by destruct t3.
Qed.
End string_lemmas.

(** ** Decimal notation of integers *)

Section decimal.
Lemma pretty_N_char_decimal x : decimal_char (pretty_N_char x) = true.
Proof. unfold pretty_N_char. by repeat case_match. Qed.

Lemma pretty_N_go_decimal x s :
  str_forall decimal_char s = true →
  str_forall decimal_char (pretty_N_go x s) = true.
Proof.
  revert s. induction (N.lt_wf_0 x) as [x _ IH]; intros s Hs.
  destruct (decide (x = 0)%N) as [->|]; [done|].
  rewrite pretty_N_go_step by lia. apply IH; [apply N.div_lt; lia|].
  simpl. by rewrite pretty_N_char_decimal.
Qed.

Lemma pretty_N_go_length x s :
  String.length s ≤ String.length (pretty_N_go x s).
Proof.
  revert s. induction (N.lt_wf_0 x) as [x _ IH]; intros s.
  destruct (decide (x = 0)%N) as [->|]; [done|].
  rewrite pretty_N_go_step by lia.
  etrans; [|apply IH, N.div_lt; lia]. simpl; lia.
Qed.

Lemma pretty_positive_decimal (p : positive) :
  str_forall decimal_char (pretty p) = true ∧ pretty p ≠ "".
Proof.
  unfold pretty, pretty_positive, pretty, pretty_N.
  destruct (decide _) as [|_]; [done|]. split.
  - by apply pretty_N_go_decimal.
  - rewrite pretty_N_go_step by lia.
    pose proof (pretty_N_go_length (N.pos p `div` 10)
      (String (pretty_N_char (N.pos p `mod` 10)) "")) as Hl.
    intros E. rewrite E in Hl. simpl in Hl. lia.
Qed.

(** [str(n)] for an integer [n] is a non-empty string of digits and [-]. *)
Lemma pretty_Z_decimal (n : Z) :
  str_forall decimal_char (pretty n) = true ∧ pretty n ≠ "".
Proof.
  destruct n as [|p|p]; [done|apply pretty_positive_decimal|].
  destruct (pretty_positive_decimal p) as [H1 H2].
  change (pretty (Z.neg p)) with (String "-" (pretty p)).
  split; [|done]. simpl. by rewrite H1.
Qed.

Lemma decimal_token_free s :
  str_forall decimal_char s = true → token_free s = true.
Proof.
  apply str_forall_impl. intros c. unfold decimal_char.
  by destruct c as [[] [] [] [] [] [] [] []]; vm_compute.
Qed.

Lemma decimal_no_brace s :
  str_forall decimal_char s = true →
  str_forall (λ c, bool_decide (c ≠ "{"%char)) s = true.
Proof. intros. by apply token_free_first_char, decimal_token_free. Qed.
End decimal.

(** ** tile_catalog_server: providers and URL templates *)

Section tile_urls.
Local Arguments String.append !_ _ / : simpl nomatch.

Lemma catalog_entry provider info :
  TILE_PROVIDERS !! provider = Some info →
  provider = "OpenStreetMap.Mapnik"
  ∧ info !! "urlTemplate"
    = Some (PyStr "https://{s}.tile.openstreetmap.org/{z}/{x}/{y}.png").
Proof.
  unfold TILE_PROVIDERS. intros [<- <-]%lookup_singleton_Some. done.
Qed.

(** The payload of [getProviderTileUrl] carries the resolved template. *)
Lemma getProviderTileUrl_url provider info t z x y subdomain :
  TILE_PROVIDERS !! provider = Some info →
  info !! "urlTemplate" = Some (PyStr t) →
  ∃ payload,
    getProviderTileUrl provider z x y subdomain = Return (PyDict payload)
    ∧ payload !! "url"
      = Some (PyStr (build_tile_url_from_template t z x y subdomain)).
Proof.
  intros Hp Ht. unfold getProviderTileUrl, get_provider_info.
  rewrite Hp. simpl. rewrite Ht. simpl.
  eexists. split; [done|]. by simplify_map_eq.
Qed.

(** The style document lists one tile URL, the template resolved with
    the placeholders kept and the subdomain [a]. *)
Lemma getMapLibreStyle_tiles provider info t centerLat centerLon zoom :
  TILE_PROVIDERS !! provider = Some info →
  info !! "urlTemplate" = Some (PyStr t) →
  ∃ style,
    getMapLibreStyle provider centerLat centerLon zoom = Return style
    ∧ style_tiles style
      = Return (PyList [PyStr
          (build_tile_url_from_template t (TStr "{z}") (TStr "{x}")
             (TStr "{y}") (Some "a"))]).
Proof.
  intros Hp Ht. unfold getMapLibreStyle, get_provider_info.
  rewrite Hp. simpl. rewrite Ht. simpl.
  eexists. split; [done|]. unfold style_tiles. by simplify_map_eq.
Qed.

(** The catalog's template, resolved on text without braces. *)
Lemma osm_template_resolved dz dx dy :
  str_forall (λ c, bool_decide (c ≠ "{"%char)) dz = true →
  str_forall (λ c, bool_decide (c ≠ "{"%char)) dx = true →
  str_forall (λ c, bool_decide (c ≠ "{"%char)) dy = true →
  Str.replace "{s}" "a"
    (Str.replace "{y}" dy (Str.replace "{x}" dx (Str.replace "{z}" dz
       "https://{s}.tile.openstreetmap.org/{z}/{x}/{y}.png")))
  = "https://a.tile.openstreetmap.org/" +:+ dz +:+ "/" +:+ dx +:+ "/"
    +:+ dy +:+ ".png".
Proof.
  intros Hz Hx Hy. unfold Str.replace.
  repeat (progress simpl || rewrite replace_go_through by done). done.
Qed.

Lemma osm_style_url_filled dz dx dy :
  str_forall (λ c, bool_decide (c ≠ "{"%char)) dz = true →
  str_forall (λ c, bool_decide (c ≠ "{"%char)) dx = true →
  str_forall (λ c, bool_decide (c ≠ "{"%char)) dy = true →
  Str.replace "{y}" dy (Str.replace "{x}" dx (Str.replace "{z}" dz
    "https://a.tile.openstreetmap.org/{z}/{x}/{y}.png"))
  = "https://a.tile.openstreetmap.org/" +:+ dz +:+ "/" +:+ dx +:+ "/"
    +:+ dy +:+ ".png".
Proof.
  intros Hz Hx Hy. unfold Str.replace.
  repeat (progress simpl || rewrite replace_go_through by done). done.
Qed.

(** Resolving one coordinate token creates no [{s}] token. *)
Lemma resolve_coordinate_no_token tok a t :
  tok ≠ "" → coordinate_arg tok a →
  Str.contains "{s}" t = false →
  Str.contains "{s}" (Str.replace tok (str a) t) = false.
Proof.
  intros Htok Ha Ht. destruct tok as [|c tok]; [done|].
  unfold Str.replace. destruct a as [n|s]; simpl in *.
  - destruct (Str.contains "{s}" (Str.replace_go _ _ _ _)) eqn:Hc; [|done].
    destruct (pretty_Z_decimal n) as [Hdec Hne].
    apply contains_replace_go in Hc; [congruence|done..|].
    by apply decimal_token_free.
  - subst s. by rewrite replace_go_same.
Qed.

(** The two URLs the catalog's provider gives. *)
Lemma osm_style_tile_url :
  build_tile_url_from_template
    "https://{s}.tile.openstreetmap.org/{z}/{x}/{y}.png"
    (TStr "{z}") (TStr "{x}") (TStr "{y}") (Some "a")
  = "https://a.tile.openstreetmap.org/{z}/{x}/{y}.png".
Proof. vm_compute. reflexivity. Qed.

Lemma osm_provider_url (z x y : Z) :
  build_tile_url_from_template
    "https://{s}.tile.openstreetmap.org/{z}/{x}/{y}.png"
    (TInt z) (TInt x) (TInt y) (Some "a")
  = "https://a.tile.openstreetmap.org/" +:+ pretty z +:+ "/" +:+ pretty x
    +:+ "/" +:+ pretty y +:+ ".png".
Proof.
  destruct (pretty_Z_decimal z) as [Hz%decimal_no_brace _].
  destruct (pretty_Z_decimal x) as [Hx%decimal_no_brace _].
  destruct (pretty_Z_decimal y) as [Hy%decimal_no_brace _].
  unfold build_tile_url_from_template, str.
  revert Hz Hx Hy. generalize (pretty z) (pretty x) (pretty y).
  intros dz dx dy Hz Hx Hy.
  rewrite <- (osm_template_resolved dz dx dy) by done.
  assert (Str.contains "{s}"
    (Str.replace "{y}" dy (Str.replace "{x}" dx (Str.replace "{z}" dz
       "https://{s}.tile.openstreetmap.org/{z}/{x}/{y}.png"))) = true)
    as ->; [|done].
  unfold Str.replace. by simpl.
Qed.
End tile_urls.

(** C8: for a provider name that the catalog does not hold,
    [getProviderTileUrl] raises: a [ValueError] whose message names the
    provider. No payload is returned. *)
Theorem getProviderTileUrl_unknown_provider provider z x y subdomain :
  TILE_PROVIDERS !! provider = None →
  getProviderTileUrl provider z x y subdomain
  = Raise (Exc ValueError ("Unknown tile provider: " +:+ provider)).
Proof.
  intros Hp. unfold getProviderTileUrl, get_provider_info. by rewrite Hp.
Qed.

Lemma getProviderTileUrl_unknown_provider_witness :
  TILE_PROVIDERS !! "DoesNotExist" = None
  ∧ getProviderTileUrl "DoesNotExist" (TInt 1) (TInt 1) (TInt 1) None
    = Raise (Exc ValueError "Unknown tile provider: DoesNotExist").
Proof.
  split; [reflexivity|].
  apply (getProviderTileUrl_unknown_provider "DoesNotExist"). reflexivity.
Defined.

(** C9: when the template has no [{s}] token, and [z], [x], [y] are
    integers or the literal placeholders, the resolved URL is the same for
    any two subdomain arguments, [None] included. The function is total:
    there is no error to raise. *)
Theorem build_tile_url_ignores_subdomain template z x y sub1 sub2 :
  Str.contains "{s}" template = false →
  coordinate_arg "{z}" z → coordinate_arg "{x}" x → coordinate_arg "{y}" y →
  build_tile_url_from_template template z x y sub1
  = build_tile_url_from_template template z x y sub2.
Proof.
  intros Ht Hz Hx Hy. unfold build_tile_url_from_template.
  assert (Str.contains "{s}"
    (Str.replace "{y}" (str y) (Str.replace "{x}" (str x)
       (Str.replace "{z}" (str z) template))) = false) as ->; [|done].
  by repeat (apply resolve_coordinate_no_token; [done..|]).
Qed.

Lemma build_tile_url_ignores_subdomain_witness :
  Str.contains "{s}" "https://tile.openstreetmap.org/{z}/{x}/{y}.png" = false
  ∧ build_tile_url_from_template
      "https://tile.openstreetmap.org/{z}/{x}/{y}.png"
      (TInt 5) (TInt 3) (TStr "{y}") (Some "b")
    = build_tile_url_from_template
      "https://tile.openstreetmap.org/{z}/{x}/{y}.png"
      (TInt 5) (TInt 3) (TStr "{y}") None.
Proof.
  split; [reflexivity|].
  apply build_tile_url_ignores_subdomain; [reflexivity|exact I|exact I|reflexivity].
Defined.

(** The restriction on [z], [x], [y] matters: a string argument can bring
    a [{s}] token of its own. *)
Example build_tile_url_token_from_argument :
  build_tile_url_from_template "{z}" (TStr "{s}") (TInt 0) (TInt 0) (Some "b") = "b"
  ∧ build_tile_url_from_template "{z}" (TStr "{s}") (TInt 0) (TInt 0) None = "a".
Proof. done. Qed.

(** C5: for every provider of the catalog and every tile [(z, x, y)],
    filling [{z}], [{x}], [{y}] in the single tile URL of the style
    document gives the [url] of [getProviderTileUrl] for that tile and
    subdomain [a]. *)
Theorem style_tile_url_round_trip provider info centerLat centerLon zoom
    (z x y : Z) :
  TILE_PROVIDERS !! provider = Some info →
  ∃ style tile_url payload url,
    getMapLibreStyle provider centerLat centerLon zoom = Return style
    ∧ style_tiles style = Return (PyList [PyStr tile_url])
    ∧ getProviderTileUrl provider (TInt z) (TInt x) (TInt y) (Some "a")
      = Return (PyDict payload)
    ∧ payload !! "url" = Some (PyStr url)
    ∧ fill_tile_url tile_url z x y = url.
Proof.
  intros Hp. destruct (catalog_entry _ _ Hp) as [_ Ht].
  destruct (getMapLibreStyle_tiles _ _ _ centerLat centerLon zoom Hp Ht)
    as (style & Hstyle & Htiles).
  destruct (getProviderTileUrl_url _ _ _ (TInt z) (TInt x) (TInt y)
    (Some "a") Hp Ht) as (payload & Hpayload & Hurl).
  rewrite osm_style_tile_url in Htiles. rewrite osm_provider_url in Hurl.
  eexists style, _, payload, _. split; [exact Hstyle|].
  split; [exact Htiles|]. split; [exact Hpayload|]. split; [exact Hurl|].
  destruct (pretty_Z_decimal z) as [Hz%decimal_no_brace _].
  destruct (pretty_Z_decimal x) as [Hx%decimal_no_brace _].
  destruct (pretty_Z_decimal y) as [Hy%decimal_no_brace _].
  unfold fill_tile_url. by apply osm_style_url_filled.
Qed.

Lemma style_tile_url_round_trip_witness :
  ∃ style tile_url payload url,
    getMapLibreStyle "OpenStreetMap.Mapnik" (PyFloat lat_hamra)
      (PyFloat lon_hamra) (PyInt 14) = Return style
    ∧ style_tiles style = Return (PyList [PyStr tile_url])
    ∧ getProviderTileUrl "OpenStreetMap.Mapnik" (TInt 14) (TInt 9806)
        (TInt 6550) (Some "a") = Return (PyDict payload)
    ∧ payload !! "url" = Some (PyStr url)
    ∧ fill_tile_url tile_url 14 9806 6550 = url.
Proof.
  eapply (style_tile_url_round_trip "OpenStreetMap.Mapnik"). reflexivity.
Defined.

(** ** maps_geo_server: degraded and defaulted results *)

(** C3 (failing input): an entry whose [lat] is JSON [null] is not
    dropped. [float(None)] raises [TypeError], which the loop's
    [except (KeyError, ValueError)] does not take, so [geocodeAddress]
    raises to its caller. *)
Theorem geocodeAddress_null_lat_raises (float_of_str : string → option float)
    (query limit : pyval) :
  geocodeAddress float_of_str query limit
    (Return (PyList
       [PyDict {[ "lat" := PyNone; "lon" := PyStr "35.5" ]}]))
  = Raise (Exc TypeError
      "float() argument must be a string or a real number, not 'NoneType'").
Proof. reflexivity. Qed.

(** C4: whatever the arguments and whatever exception the spatial-query
    call raises, [searchPois] returns a payload whose [results] is the
    empty list and whose [error] is a string that quotes the exception. *)
Theorem searchPois_upstream_failure (keyword lat lon radiusM maxResults : pyval)
    (e : exception) :
  ∃ payload,
    searchPois keyword lat lon radiusM maxResults (Raise e)
    = Return (PyDict payload)
    ∧ payload !! "results" = Some (PyList [])
    ∧ payload !! "error"
      = Some (PyStr ("Overpass request failed: " +:+ exc_str e)).
Proof. eexists. split; [done|]. by simplify_map_eq. Qed.

(** C7: when the routing response is an object whose [routes] is the
    empty list, [basicRoute] returns the payload with
    [error = "No route found"] and the start and end coordinates. *)
Theorem basicRoute_no_route (startLat startLon endLat endLon profile : pyval)
    (data : gmap string pyval) :
  data !! "routes" = Some (PyList []) →
  basicRoute startLat startLon endLat endLon profile (Return (PyDict data))
  = Return (PyDict
      {[ "error" := PyStr "No route found";
         "start" := PyDict {[ "lat" := startLat; "lon" := startLon ]};
         "end" := PyDict {[ "lat" := endLat; "lon" := endLon ]} ]}).
Proof. intros Hr. unfold basicRoute. simpl. by rewrite Hr. Qed.

Lemma basicRoute_no_route_witness :
  ({[ "code" := PyStr "Ok"; "routes" := PyList [] ]} : gmap string pyval)
    !! "routes" = Some (PyList [])
  ∧ basicRoute (PyFloat 1) (PyFloat 2) (PyFloat 3) (PyFloat 4)
      (PyStr "driving")
      (Return (PyDict {[ "code" := PyStr "Ok"; "routes" := PyList [] ]}))
    = Return (PyDict
        {[ "error" := PyStr "No route found";
           "start" := PyDict {[ "lat" := PyFloat 1; "lon" := PyFloat 2 ]};
           "end" := PyDict {[ "lat" := PyFloat 3; "lon" := PyFloat 4 ]} ]}).
Proof.
  split; [reflexivity|]. apply basicRoute_no_route. reflexivity.
Defined.

Lemma truediv_float_real_number v (b : float) :
  real_number v → is_zero b = false →
  ∃ q, Py.truediv_float v b = Return q.
Proof.
  intros Hv Hb. destruct v; simpl in *; try done.
  - unfold Flt.truediv. rewrite Hb. eauto.
  - destruct Hv as [f ->]. simpl. unfold Flt.truediv. rewrite Hb. eauto.
  - unfold Flt.truediv. rewrite Hb. eauto.
Qed.

(** C10: the first route is an object, its fields that are present are
    numbers and its legs can be summarised. Then [basicRoute] returns, and
    a missing [distance] gives [distanceKm = 0.0], a missing [duration]
    gives [durationMin = 0.0]. *)
Theorem basicRoute_missing_distance_duration
    (startLat startLon endLat endLon profile : pyval)
    (data route : gmap string pyval) (rest steps : list pyval) :
  data !! "routes" = Some (PyList (PyDict route :: rest)) →
  (∀ v, route !! "distance" = Some v → real_number v) →
  (∀ v, route !! "duration" = Some v → real_number v) →
  route_steps (PyDict route) = Return steps →
  ∃ payload,
    basicRoute startLat startLon endLat endLon profile (Return (PyDict data))
    = Return (PyDict payload)
    ∧ (route !! "distance" = None →
       payload !! "distanceKm" = Some (PyFloat 0))
    ∧ (route !! "duration" = None →
       payload !! "durationMin" = Some (PyFloat 0)).
Proof.
  intros Hroutes Hdist Hdur Hsteps.
  assert (∃ km, Py.truediv_float (default (PyInt 0) (route !! "distance")) 1000
                = Return km
    ∧ (route !! "distance" = None → km = 0%float)) as (km & Hkm & Hkm0).
  { destruct (route !! "distance") as [v|] eqn:E; simpl.
    - destruct (truediv_float_real_number v 1000) as [q Hq]; [auto|done|].
      by exists q.
    - by exists 0%float. }
  assert (∃ mi, Py.truediv_float (default (PyInt 0) (route !! "duration")) 60
                = Return mi
    ∧ (route !! "duration" = None → mi = 0%float)) as (mi & Hmi & Hmi0).
  { destruct (route !! "duration") as [v|] eqn:E; simpl.
    - destruct (truediv_float_real_number v 60) as [q Hq]; [auto|done|].
      by exists q.
    - by exists 0%float. }
  unfold basicRoute, route_steps in *. simpl in *.
  rewrite Hroutes. simpl. rewrite Hkm. simpl. rewrite Hmi. simpl.
  rewrite Hsteps. simpl.
  eexists. split; [done|]. split.
  - intros ->%Hkm0. by simplify_map_eq.
  - intros ->%Hmi0. by simplify_map_eq.
Qed.

Lemma basicRoute_missing_distance_duration_witness :
  ∃ payload,
    basicRoute (PyFloat 1) (PyFloat 2) (PyFloat 3) (PyFloat 4) (PyStr "foot")
      (Return (PyDict {[ "routes" := PyList
         [PyDict {[ "duration" := PyInt 120; "legs" := PyList [] ]}] ]}))
    = Return (PyDict payload)
    ∧ (({[ "duration" := PyInt 120; "legs" := PyList [] ]}
          : gmap string pyval) !! "distance" = None →
       payload !! "distanceKm" = Some (PyFloat 0))
    ∧ (({[ "duration" := PyInt 120; "legs" := PyList [] ]}
          : gmap string pyval) !! "duration" = None →
       payload !! "durationMin" = Some (PyFloat 0)).
Proof.
  apply (basicRoute_missing_distance_duration _ _ _ _ _
    {[ "routes" := PyList
         [PyDict {[ "duration" := PyInt 120; "legs" := PyList [] ]}] ]}
    {[ "duration" := PyInt 120; "legs" := PyList [] ]} [] []).
  - reflexivity.
  - intros v Hv. vm_compute in Hv. discriminate Hv.
  - intros v Hv. vm_compute in Hv. injection Hv as <-.
    exists 120%float. reflexivity.
  - reflexivity.
Defined.

(** ** Floats: powers of two and truncation *)

Section float_lemmas.
Local Open Scope Z_scope.

Lemma two_pow_table : forallb two_pow_ok (seqZ 0 1024) = true.
Proof. vm_compute. reflexivity. Qed.

Lemma two_pow_spec zoom :
  0 ≤ zoom ≤ 1023 →
  Flt.of_int (2 ^ zoom) = Return (two_pow zoom)
  ∧ Prim2SF (two_pow zoom) = S754_finite false 4503599627370496 (zoom - 52).
Proof.
  intros Hz. pose proof two_pow_table as Ht.
  rewrite forallb_forall in Ht. specialize (Ht zoom).
  unfold two_pow_ok in Ht. 
  assert (In zoom (seqZ 0 1024)) as Hin.
  { apply list_elem_of_In, elem_of_seqZ. lia. }
  apply Ht in Hin. apply andb_true_iff in Hin as [Hinf Hsf].
  split.
  - unfold Flt.of_int. fold (two_pow zoom). by destruct (is_infinity _).
  - unfold two_pow. destruct (binary_normalize _ _ _ _ _) as [| | |[] m e]; try done.
    apply andb_true_iff in Hsf as [Hsf Hv]. apply andb_true_iff in Hsf as [Hm He].
    rewrite Prim2SF_SF2Prim by done.
    apply Z.eqb_eq in Hm, He. subst e. f_equal. lia.
Qed.

Lemma digits2_pos_bound m : Z.pos m < 2 ^ Z.pos (digits2_pos m).
Proof.
  induction m as [m IH|m IH|]; simpl; [| |done];
    rewrite Pos2Z.inj_succ, Z.pow_succ_r by lia; lia.
Qed.

Lemma valid_mantissa_bound s m e :
  valid_binary (S754_finite s m e) = true → Z.pos m < 2 ^ 53.
Proof.
  unfold valid_binary, bounded, canonical_mantissa, fexp, emin, prec, emax.
  intros [Hc _]%andb_true_iff. apply Z.eqb_eq in Hc.
  pose proof (digits2_pos_bound m) as Hm.
  eapply Z.lt_le_trans; [exact Hm|]. apply Z.pow_le_mono_r; lia.
Qed.

Lemma shiftl_lt m e j k :
  0 ≤ m < 2 ^ j → 0 ≤ j → 0 ≤ k → e + j ≤ k → 0 ≤ Z.shiftl m e < 2 ^ k.
Proof.
  intros [Hm0 Hm] Hj Hk He. split; [by apply Z.shiftl_nonneg|].
  destruct (Z.le_gt_cases 0 e) as [He0|He0].
  - rewrite Z.shiftl_mul_pow2 by done.
    apply Z.lt_le_trans with (2 ^ j * 2 ^ e).
    + apply Z.mul_lt_mono_pos_r; [by apply Z.pow_pos_nonneg|done].
    + rewrite <- Z.pow_add_r by done. apply Z.pow_le_mono_r; lia.
  - rewrite Z.shiftl_div_pow2 by lia.
    apply Z.div_lt_upper_bound; [apply Z.pow_pos_nonneg; lia|].
    rewrite <- Z.pow_add_r by lia.
    eapply Z.lt_le_trans; [exact Hm|]. apply Z.pow_le_mono_r; lia.
Qed.

Lemma SFltb_pos_pos m1 e1 m2 e2 :
  SFltb (S754_finite false m1 e1) (S754_finite false m2 e2) = true →
  e1 < e2 ∨ (e1 = e2 ∧ Z.pos m1 < Z.pos m2).
Proof.
  unfold SFltb, SFcompare.
  destruct (Z.compare_spec e1 e2) as [He|He|He]; [|by left|done].
  change (Pos.compare_cont Eq m1 m2) with (Pos.compare m1 m2).
  destruct (Pos.compare_spec m1 m2) as [Hc|Hc|Hc]; [done| |done].
  intros _. right. split; [done|]. by apply Pos2Z.pos_lt_pos.
Qed.

Lemma SFltb_neg_neg m1 e1 m2 e2 :
  SFltb (S754_finite true m1 e1) (S754_finite true m2 e2) = true →
  e2 < e1 ∨ (e1 = e2 ∧ Z.pos m2 < Z.pos m1).
Proof.
  unfold SFltb, SFcompare.
  destruct (Z.compare_spec e1 e2) as [He|He|He]; [|done|by left].
  change (Pos.compare_cont Eq m1 m2) with (Pos.compare m1 m2).
  destruct (Pos.compare_spec m1 m2) as [Hc|Hc|Hc]; [done|done|].
  intros _. right. split; [done|]. by apply Pos2Z.pos_lt_pos.
Qed.

(** [int(f)] for a float strictly between [-1] and [2 ** zoom]. *)
Lemma to_int_in_range (f : float) zoom :
  0 ≤ zoom ≤ 1023 →
  (-1 <? f)%float = true → (f <? two_pow zoom)%float = true →
  ∃ k, Flt.to_int f = Return k ∧ 0 ≤ k < 2 ^ zoom.
Proof.
  intros Hz Hlo Hhi. rewrite ltb_spec in Hlo, Hhi.
  destruct (two_pow_spec zoom Hz) as [_ Hn]. rewrite Hn in Hhi. clear Hn.
  assert (Prim2SF (-1) = S754_finite true 4503599627370496 (-52)) as Hm1
    by (vm_compute; reflexivity).
  rewrite Hm1 in Hlo. clear Hm1.
  pose proof (Prim2SF_valid f) as Hv. unfold Flt.to_int.
  assert (0 < 2 ^ zoom) as Hpos by (apply Z.pow_pos_nonneg; lia).
  assert (Z.pos 4503599627370496 = 2 ^ 52) as H52 by reflexivity.
  destruct (Prim2SF f) as [s|s| |s m e].
  - exists 0. split; [done|lia].
  - destruct s; [cbn in Hlo|cbn in Hhi]; discriminate.
  - cbn in Hlo. discriminate.
  - apply valid_mantissa_bound in Hv.
    eexists. split; [reflexivity|]. destruct s; unfold cond_Zopp.
    + clear Hhi. apply SFltb_neg_neg in Hlo. rewrite H52 in Hlo. clear H52.
      cut (0 ≤ Z.shiftl (Z.pos m) e < 2 ^ 0).
      { rewrite Z.pow_0_r. clear -Hpos. lia. }
      destruct Hlo as [He|[He Hm]].
      * apply (shiftl_lt _ _ 53); clear -He Hv; lia.
      * apply (shiftl_lt _ _ 52); clear -He Hm; lia.
    + clear Hlo. apply SFltb_pos_pos in Hhi. rewrite H52 in Hhi. clear H52.
      destruct Hhi as [He|[He Hm]].
      * apply (shiftl_lt _ _ 53); clear -He Hv Hz; lia.
      * apply (shiftl_lt _ _ 52); clear -He Hm Hz; lia.
Qed.
End float_lemmas.

(** ** tile_catalog_server: the tile index *)

Section tile_index_lemmas.
Context (libm : Libm).
Local Open Scope float_scope.

Lemma is_finite_not_nan x : is_finite x = true → is_nan x = false.
Proof. unfold is_finite. by destruct (is_nan x). Qed.

Lemma is_finite_not_infinity x : is_finite x = true → is_infinity x = false.
Proof. unfold is_finite. destruct (is_nan x), (is_infinity x); done. Qed.

Lemma math_1_value func x r :
  func x = r → is_finite r = true → Math.math_1 func x = Return r.
Proof.
  intros <- Hr. unfold Math.math_1.
  by rewrite (is_finite_not_nan _ Hr), (is_finite_not_infinity _ Hr).
Qed.

Lemma truediv_value a b :
  is_zero b = false → Flt.truediv a b = Return (a / b).
Proof. intros Hb. unfold Flt.truediv. by rewrite Hb. Qed.

(** [math.log] of a finite float that is not positive. *)
Lemma log_domain_error x :
  is_finite x = true → (0 <? x) = false →
  Math.log libm x = Raise (Exc ValueError "math domain error").
Proof.
  intros Hx Hpos. unfold Math.log, Math.math_1, Math.m_log.
  rewrite Hx, Hpos, (is_finite_not_nan _ Hx). by destruct (x =? 0).
Qed.

(** [math.log] of a finite positive float. *)
Lemma log_value x l :
  c_log libm x = l → is_finite x = true → (0 <? x) = true →
  is_finite l = true → Math.log libm x = Return l.
Proof.
  intros Hl Hx Hpos Hfin. apply math_1_value; [|done].
  unfold Math.m_log. by rewrite Hx, Hpos.
Qed.

(** [y_tile] depends on the library through three values only. *)
Lemma y_tile_value lat n t c l :
  c_tan libm (Math.radians lat) = t →
  c_cos libm (Math.radians lat) = c →
  c_log libm (t + 1 / c) = l →
  mercator_values_ok t c l = true →
  y_tile libm lat n
  = (a ← num_mul n (1 - l / Flt.math_pi); Flt.truediv a 2).
Proof.
  intros Ht Hc Hl Hok. unfold mercator_values_ok in Hok.
  repeat (apply andb_true_iff in Hok as [Hok ?]).
  unfold y_tile, Math.tan, Math.cos. cbv zeta.
  rewrite (math_1_value (c_tan libm) _ t), (math_1_value (c_cos libm) _ c)
    by done.
  cbn [mbind result_bind]. rewrite truediv_value by by apply negb_true_iff.
  cbn [mbind result_bind]. rewrite (log_value _ l) by done.
  cbn [mbind result_bind]. by rewrite truediv_value.
Qed.

(** When [tan + 1/cos] is a finite float that is not positive, [y_tile]
    raises the domain error of [math.log]. *)
Lemma y_tile_domain_error lat n t c :
  c_tan libm (Math.radians lat) = t →
  c_cos libm (Math.radians lat) = c →
  is_finite t = true → is_finite c = true → is_zero c = false →
  is_finite (t + 1 / c) = true → (0 <? t + 1 / c) = false →
  y_tile libm lat n = Raise (Exc ValueError "math domain error").
Proof.
  intros Ht Hc Hft Hfc Hzc Hfs Hpos. unfold y_tile, Math.tan, Math.cos.
  cbv zeta.
  rewrite (math_1_value (c_tan libm) _ t), (math_1_value (c_cos libm) _ c)
    by done.
  cbn [mbind result_bind]. rewrite truediv_value by done.
  cbn [mbind result_bind]. by rewrite log_domain_error.
Qed.

Lemma pow2_nonneg zoom :
  (0 ≤ zoom)%Z → pow2 zoom = Return (inl (2 ^ zoom)%Z).
Proof. intros Hz. unfold pow2. by rewrite (proj2 (Z.leb_le 0 zoom)). Qed.

Lemma num_mul_two_pow zoom f :
  (0 ≤ zoom ≤ 1023)%Z →
  num_mul (inl (2 ^ zoom)%Z) f = Return (two_pow zoom * f).
Proof.
  intros Hz. unfold num_mul.
  destruct (two_pow_spec zoom Hz) as [-> _]. done.
Qed.

(** The function assembled from its locals. *)
Lemma lat_lon_to_tile_indices_value lat lon zoom n xt yt x y :
  pow2 zoom = Return n →
  x_tile lon n = Return xt →
  y_tile libm lat n = Return yt →
  Flt.to_int xt = Return x →
  Flt.to_int yt = Return y →
  lat_lon_to_tile_indices libm lat lon zoom = Return (x, y).
Proof.
  intros Hn Hx Hy Hxi Hyi. unfold lat_lon_to_tile_indices.
  rewrite Hn. cbn [mbind result_bind]. rewrite Hx. cbn [mbind result_bind].
  rewrite Hy. cbn [mbind result_bind]. rewrite Hxi. cbn [mbind result_bind].
  by rewrite Hyi.
Qed.

(** C6 (amended): with the library values at latitude 33.895,
    [lat_lon_to_tile_indices(33.895, 35.478, 14)] is [(9806, 6550)]. *)
Theorem lat_lon_to_tile_indices_hamra :
  c_tan libm (Math.radians lat_hamra) = 0x1.57fc206f243bdp-1 →
  c_cos libm (Math.radians lat_hamra) = 0x1.a8fdbfd979e96p-1 →
  c_log libm (0x1.57fc206f243bdp-1 + 1 / 0x1.a8fdbfd979e96p-1)
    = 0x1.424722cb2baadp-1 →
  lat_lon_to_tile_indices libm lat_hamra lon_hamra 14
  = Return (9806, 6550)%Z.
Proof.
  intros Ht Hc Hl.
  eapply lat_lon_to_tile_indices_value.
  - reflexivity.
  - vm_compute. reflexivity.
  - rewrite (y_tile_value _ _ _ _ _ Ht Hc Hl) by (vm_compute; reflexivity).
    vm_compute. reflexivity.
  - vm_compute. reflexivity.
  - vm_compute. reflexivity.
Qed.

Lemma pole_y_table : forallb pole_y_negative (seqZ 0 1021) = true.
Proof. vm_compute. reflexivity. Qed.

(** C2 (amended): with the library values at the two poles, latitude -90
    raises [ValueError] (the logarithm of zero) for every longitude and
    every [zoom] of [0..1023]; latitude +90 raises nothing: whenever the
    longitude gives an [x], the function returns [(x, y)] with [y]
    negative, for every [zoom] of [0..1020]. *)
Theorem lat_lon_to_tile_indices_poles lon zoom :
  c_tan libm (Math.radians 90) = tan_pole →
  c_cos libm (Math.radians 90) = cos_pole →
  c_log libm (tan_pole + 1 / cos_pole) = log_pole →
  c_tan libm (Math.radians (-90)) = - tan_pole →
  c_cos libm (Math.radians (-90)) = cos_pole →
  ((0 ≤ zoom ≤ 1023)%Z →
   lat_lon_to_tile_indices libm (-90) lon zoom
   = Raise (Exc ValueError "math domain error"))
  ∧ ((0 ≤ zoom ≤ 1020)%Z → ∀ xt x,
     x_tile lon (inl (2 ^ zoom)%Z) = Return xt →
     Flt.to_int xt = Return x →
     ∃ y, lat_lon_to_tile_indices libm 90 lon zoom = Return (x, y)
          ∧ (y < 0)%Z).
Proof.
  intros Htn Hcn Hln Hts Hcs. split.
  - intros Hz. unfold lat_lon_to_tile_indices.
    rewrite pow2_nonneg by lia. cbn [mbind result_bind].
    unfold x_tile. rewrite num_mul_two_pow by done. cbn [mbind result_bind].
    by rewrite (y_tile_domain_error _ _ _ _ Hts Hcs).
  - intros Hz xt x Hx Hxi.
    pose proof pole_y_table as Htab. rewrite forallb_forall in Htab.
    assert (In zoom (seqZ 0 1021)) as Hin.
    { apply list_elem_of_In, elem_of_seqZ. lia. }
    apply Htab in Hin. unfold pole_y_negative in Hin.
    destruct (Flt.to_int (two_pow zoom * _ / 2)) as [y|] eqn:Hyi; [|done].
    exists y. split; [|apply Z.ltb_lt; exact Hin].
    eapply lat_lon_to_tile_indices_value; [apply pow2_nonneg; lia|done| |done|exact Hyi].
    rewrite (y_tile_value _ _ _ _ _ Htn Hcn Hln) by (vm_compute; reflexivity).
    rewrite num_mul_two_pow by lia. cbn [mbind result_bind].
    by rewrite truediv_value.
Qed.
End tile_index_lemmas.

Lemma lat_lon_to_tile_indices_hamra_witness :
  lat_lon_to_tile_indices glibc lat_hamra lon_hamra 14 = Return (9806, 6550)%Z.
Proof.
  apply (lat_lon_to_tile_indices_hamra glibc); vm_compute; reflexivity.
Defined.

Lemma lat_lon_to_tile_indices_poles_witness :
  lat_lon_to_tile_indices glibc (-90) 0 0
  = Raise (Exc ValueError "math domain error")
  ∧ ∃ y, lat_lon_to_tile_indices glibc 90 0 0 = Return (0%Z, y) ∧ (y < 0)%Z.
Proof.
  destruct (lat_lon_to_tile_indices_poles glibc 0 0) as [Hs Hn];
    [vm_compute; reflexivity..|].
  split; [apply Hs; lia|].
  apply (Hn ltac:(lia) 0.5%float); vm_compute; reflexivity.
Defined.

(** C1 (counterexample): at latitude 0, longitude 180 and zoom 0, inside
    the stated ranges, no C library makes the function return indices
    below [2^0]: [x_tile] is exactly [1.0]. *)
Lemma tile_indices_out_of_range :
  ¬ ∃ libm x y,
      lat_lon_to_tile_indices libm 0 180 0 = Return (x, y)
      ∧ (0 ≤ x < 2 ^ 0)%Z ∧ (0 ≤ y < 2 ^ 0)%Z.
Proof.
  intros (libm & x & y & H & Hx & _). unfold lat_lon_to_tile_indices in H.
  assert (pow2 0 = Return (inl 1%Z)) as E by reflexivity.
  rewrite E in H. cbn [mbind result_bind] in H.
  assert (x_tile 180 (inl 1%Z) = Return 1%float) as Ex
    by (vm_compute; reflexivity).
  rewrite Ex in H. cbn [mbind result_bind] in H.
  destruct (y_tile libm 0 (inl 1%Z)) as [yt|]; [|done].
  cbn [mbind result_bind] in H.
  assert (Flt.to_int 1 = Return 1%Z) as Hone by (vm_compute; reflexivity).
  rewrite Hone in H. cbn [mbind result_bind] in H.
  destruct (Flt.to_int yt); [|done]. injection H as <- _.
  change (2 ^ 0)%Z with 1%Z in Hx. lia.
Qed.

(** C6 (counterexample): whatever the C library returns, the call does not
    give the pair the specification states; [x_tile] alone is
    [9806.64...]. *)
Lemma lat_lon_to_tile_indices_hamra_not_spec :
  ¬ ∃ libm,
      lat_lon_to_tile_indices libm lat_hamra lon_hamra 14
      = Return (9541, 6479)%Z.
Proof.
  intros [libm H]. unfold lat_lon_to_tile_indices in H.
  assert (pow2 14 = Return (inl 16384%Z)) as E by reflexivity.
  rewrite E in H. cbn [mbind result_bind] in H.
  destruct (x_tile lon_hamra (inl 16384%Z)) as [xt|] eqn:Hx; [|done].
  vm_compute in Hx. injection Hx as <-.
  cbn [mbind result_bind] in H.
  destruct (y_tile libm lat_hamra (inl 16384%Z)) as [yt|]; [|done].
  cbn [mbind result_bind] in H.
  assert (Flt.to_int 0x1.3275271fb1082p+13 = Return 9806%Z) as Hxi
    by (vm_compute; reflexivity).
  revert H. destruct (Flt.to_int yt);
    [|destruct (Flt.to_int _); done].
  destruct (Flt.to_int _) as [x|] eqn:Hxi'; [|done].
  cbn [mbind result_bind]. intros [= -> ->].
  vm_compute in Hxi'. discriminate Hxi'.
Qed.

(** C2 (counterexample): at latitude +90 (longitude 0, zoom 0) nothing is
    raised; the function returns a pair with a negative [y]. *)
Lemma lat_lon_to_tile_indices_north_pole_returns :
  lat_lon_to_tile_indices glibc 90 0 0 = Return (0, -5)%Z.
Proof. vm_compute. reflexivity. Qed.

(** ** maps_geo_server: what the tools return for well-formed responses *)

Section geocode_results.
Context (float_of_str : string → option float).

Lemma to_float_coordinate (d : gmap string pyval) key :
  coordinate_field_ok (d !! key) →
  match parse_coordinate float_of_str (d !! key) with
  | Some x =>
      (v ← Py.getitem (PyDict d) key; Py.to_float float_of_str v) = Return x
  | None =>
      ∃ e, (v ← Py.getitem (PyDict d) key; Py.to_float float_of_str v)
           = Raise e ∧ exc_type e ∈ [KeyError; ValueError]
  end.
Proof.
  simpl. destruct (d !! key) as [[]|]; simpl; try done.
  - intros _. destruct (float_of_str s); simpl; [done|].
    eexists. split; [done|]. simpl. set_solver.
  - intros _. eexists. split; [done|]. simpl. set_solver.
Qed.

Lemma geocode_item_spec item results :
  geocode_item_ok item →
  geocode_item float_of_str item results
  = Return (results ++ option_list (geocode_entry float_of_str item)).
Proof.
  destruct item as [| | | | | |d]; try done. intros [Hlat Hlon].
  pose proof (to_float_coordinate d "lat" Hlat) as Hlat'.
  pose proof (to_float_coordinate d "lon" Hlon) as Hlon'.
  unfold geocode_item, geocode_entry.
  destruct (parse_coordinate float_of_str (d !! "lat")) as [lat|].
  - rewrite Hlat'. cbn [mbind result_bind].
    destruct (parse_coordinate float_of_str (d !! "lon")) as [lon|].
    + by rewrite Hlon'.
    + destruct Hlon' as (e & -> & He). cbn [mbind result_bind].
      unfold try_except. rewrite bool_decide_true by done.
      simpl. by rewrite app_nil_r.
  - destruct Hlat' as (e & -> & He). cbn [mbind result_bind].
    unfold try_except. rewrite bool_decide_true by done.
    simpl. by rewrite app_nil_r.
Qed.

Lemma geocode_loop_spec items results :
  Forall geocode_item_ok items →
  for_loop (geocode_item float_of_str) items results
  = Return (results ++ omap (geocode_entry float_of_str) items).
Proof.
  intros Hok. revert results.
  induction Hok as [|item items Hitem _ IH]; intros results; simpl.
  - by rewrite app_nil_r.
  - rewrite geocode_item_spec by done. cbn [mbind result_bind]. rewrite IH.
    rewrite <- app_assoc. by destruct (geocode_entry float_of_str item).
Qed.

(** X1: when every entry of the response list is an object whose [lat]
    and [lon], if present, are strings or floats, [geocodeAddress] returns
    [{query, results}] where [results] holds, in upstream order, one record
    [{displayName, lat, lon, type, class}] for each entry whose two
    coordinates are present and parse; the other entries are dropped. *)
Theorem geocodeAddress_results (query limit : pyval) (items : list pyval) :
  Forall geocode_item_ok items →
  geocodeAddress float_of_str query limit (Return (PyList items))
  = Return (PyDict
      {[ "query" := query;
         "results" := PyList (omap (geocode_entry float_of_str) items) ]}).
Proof.
  intros Hok. unfold geocodeAddress. cbn [mbind result_bind Py.iter].
  by rewrite geocode_loop_spec.
Qed.
End geocode_results.

Section pois.
Implicit Types (keyword lat lon radiusM maxResults : pyval).

Lemma poi_item_spec el pois :
  element_ok el →
  poi_item el pois = Return (pois ++ option_list (poi_entry el)).
Proof.
  destruct el as [| | | | | |d]; try done.
  unfold element_ok, poi_item, poi_entry, is_node, element_tags.
  cbn [Py.get mbind result_bind].
  destruct (d !! "type") as [[| | | |s| |]|]; simpl;
    try (intros _; by rewrite app_nil_r).
  destruct (String.eqb s "node"); simpl; [|intros _; by rewrite app_nil_r].
  intros Htags. specialize (Htags eq_refl).
  by destruct (d !! "tags") as [[]|].
Qed.

Lemma poi_loop_spec els pois :
  Forall element_ok els →
  for_loop poi_item els pois = Return (pois ++ omap poi_entry els).
Proof.
  intros Hok. revert pois.
  induction Hok as [|el els Hel _ IH]; intros pois; simpl.
  - by rewrite app_nil_r.
  - rewrite poi_item_spec by done. cbn [mbind result_bind]. rewrite IH.
    rewrite <- app_assoc. by destruct (poi_entry el).
Qed.

Lemma omap_length_le {A B} (f : A → option B) l : length (omap f l) ≤ length l.
Proof.
  induction l as [|x l IH]; csimpl; [done|]. destruct (f x); simpl; lia.
Qed.

(** X2: for a response object with an [elements] list and a non-negative
    [maxResults = k], [searchPois] looks at the first [k] elements only,
    keeps the nodes among them in order as [{name, amenity, lat, lon}]
    (missing fields [None]) and returns at most [k] results, without an
    [error] field. Elements past the first [k] may be anything. *)
Theorem searchPois_results keyword lat lon radiusM (k : Z)
    (raw : gmap string pyval) (els : list pyval) :
  raw !! "elements" = Some (PyList els) →
  (0 ≤ k)%Z →
  Forall element_ok (take (Z.to_nat k) els) →
  ∃ pois,
    searchPois keyword lat lon radiusM (PyInt k) (Return (PyDict raw))
    = Return (PyDict
        {[ "center" := PyDict {[ "lat" := lat; "lon" := lon ]};
           "search" := PyDict {[ "keyword" := keyword; "radiusM" := radiusM ]};
           "results" := PyList pois ]})
    ∧ pois = omap poi_entry (take (Z.to_nat k) els)
    ∧ (Z.of_nat (length pois) ≤ k)%Z.
Proof.
  intros Hraw Hk Hok. eexists. split; [|split; [reflexivity|]].
  - unfold searchPois. cbn [Py.is_dict Py.get]. rewrite Hraw.
    cbn [default id from_option mbind result_bind Py.slice_to].
    rewrite (proj2 (Z.leb_le 0 k)) by done.
    cbn [mbind result_bind Py.iter]. by rewrite poi_loop_spec.
  - pose proof (omap_length_le poi_entry (take (Z.to_nat k) els)) as Hl.
    rewrite length_take in Hl. lia.
Qed.

(** X3: a response that is not an object, or an object without
    [elements], gives the payload with [results = []] and no [error]
    field: the same payload as an area without any point of interest. *)
Theorem searchPois_no_elements keyword lat lon radiusM maxResults (raw : pyval) :
  response_elements_missing raw →
  slice_bound maxResults →
  searchPois keyword lat lon radiusM maxResults (Return raw)
  = Return (PyDict
      {[ "center" := PyDict {[ "lat" := lat; "lon" := lon ]};
         "search" := PyDict {[ "keyword" := keyword; "radiusM" := radiusM ]};
         "results" := PyList [] ]}).
Proof.
  intros Hraw Hmax. unfold searchPois.
  assert ((if Py.is_dict raw then Py.get raw "elements" (PyList [])
           else Return (PyList [])) = Return (PyList [])) as ->.
  { destruct raw; try done. simpl in *. by rewrite Hraw. }
  destruct maxResults as [| |k| | | |]; try done;
    cbn [Py.slice_to mbind result_bind length]; by rewrite take_nil.
Qed.
End pois.

Section routes.
Implicit Types (startLat startLon endLat endLon profile : pyval).

Lemma join_strings (l acc : list string) :
  for_loop Py.join_item (PyStr <$> l) acc = Return (acc ++ l).
Proof.
  revert acc. induction l as [|s l IH]; intros acc; simpl.
  - by rewrite app_nil_r.
  - rewrite IH. by rewrite <- app_assoc.
Qed.

(** The truthy ones among text fields are the pieces of the summary. *)
Lemma filter_truthy_pieces (fields : list (option pyval)) :
  Forall text_field_ok fields →
  List.filter Py.truthy (default PyNone <$> fields)
  = PyStr <$> (fields ≫= piece).
Proof.
  induction 1 as [|field fields Hf _ IH]; [done|].
  rewrite bind_cons, fmap_app, <- IH, fmap_cons. cbn [List.filter].
  destruct field as [[| | | |s| |]|]; try done. simpl.
  by destruct (String.eqb s "").
Qed.

Lemma filter_or_else_empty v (l : list pyval) :
  List.filter Py.truthy (l ++ [Py.or_else v (PyStr "")])
  = List.filter Py.truthy (l ++ [v]).
Proof.
  rewrite !List.filter_app. f_equal. unfold Py.or_else. simpl.
  destruct (Py.truthy v) eqn:Hv; simpl; by rewrite ?Hv.
Qed.

Lemma route_step_spec step steps :
  step_ok step →
  route_step step steps = Return (steps ++ [PyStr (step_summary step)]).
Proof.
  destruct step as [| | | | | |s]; try done. intros [Hname Hman].
  unfold route_step, step_summary, step_maneuver.
  cbn [Py.get mbind result_bind].
  assert (∃ m, default (PyDict ∅) (s !! "maneuver") = PyDict m
    ∧ match s !! "maneuver" with Some (PyDict m') => m' | _ => ∅ end = m
    ∧ text_field_ok (m !! "type") ∧ text_field_ok (m !! "modifier"))
    as (m & -> & -> & Hty & Hmod).
  { destruct (s !! "maneuver") as [[| | | | | |m]|]; try done.
    - by exists m.
    - by exists ∅. }
  cbn [Py.get mbind result_bind].
  assert (List.filter Py.truthy
    [default PyNone (m !! "type"); default PyNone (m !! "modifier");
     Py.or_else (default PyNone (s !! "name")) (PyStr "")]
    = PyStr <$> ([m !! "type"; m !! "modifier"; s !! "name"] ≫= piece))
    as ->.
  { rewrite <- (filter_truthy_pieces [m !! "type"; m !! "modifier"; s !! "name"])
      by by repeat constructor.
    exact (filter_or_else_empty (default PyNone (s !! "name"))
      [default PyNone (m !! "type"); default PyNone (m !! "modifier")]). }
  unfold Py.join. rewrite join_strings. done.
Qed.

Lemma route_step_loop_spec ss steps :
  Forall step_ok ss →
  for_loop route_step ss steps
  = Return (steps ++ ((λ st, PyStr (step_summary st)) <$> ss)).
Proof.
  intros Hok. revert steps.
  induction Hok as [|st ss Hst _ IH]; intros steps; simpl.
  - by rewrite app_nil_r.
  - rewrite route_step_spec by done. cbn [mbind result_bind]. rewrite IH.
    by rewrite <- app_assoc.
Qed.

Lemma route_leg_spec leg steps :
  leg_ok leg →
  route_leg leg steps
  = Return (steps ++ ((λ st, PyStr (step_summary st)) <$> leg_steps leg)).
Proof.
  destruct leg as [| | | | | |l]; try done.
  unfold leg_ok, leg_steps, route_leg. cbn [Py.get mbind result_bind].
  destruct (l !! "steps") as [[| | | | |ss|]|]; try done; simpl.
  - apply route_step_loop_spec.
  - intros _. by rewrite app_nil_r.
Qed.

Lemma route_leg_loop_spec legs steps :
  Forall leg_ok legs →
  for_loop route_leg legs steps
  = Return (steps ++ ((λ st, PyStr (step_summary st)) <$> (legs ≫= leg_steps))).
Proof.
  intros Hok. revert steps.
  induction Hok as [|leg legs Hleg _ IH]; intros steps; csimpl.
  - by rewrite app_nil_r.
  - rewrite route_leg_spec by done. cbn [mbind result_bind]. rewrite IH.
    by rewrite fmap_app, app_assoc.
Qed.

(** The steps of a route: one summary per step, leg after leg. *)
Theorem route_steps_summaries (route : gmap string pyval) (legs : list pyval) :
  route !! "legs" = Some (PyList legs) →
  Forall leg_ok legs →
  route_steps (PyDict route)
  = Return ((λ st, PyStr (step_summary st)) <$> (legs ≫= leg_steps)).
Proof.
  intros Hlegs Hok. unfold route_steps. cbn [Py.get mbind result_bind].
  rewrite Hlegs. cbn [default id from_option Py.iter mbind result_bind].
  by rewrite route_leg_loop_spec.
Qed.

(** X5: whenever the routes read from the response are falsy (the
    response is not an object, has no [routes], or holds [null], [[]],
    [{}], [""], [0] or [false] there), [basicRoute] returns the
    ["No route found"] payload. *)
Theorem basicRoute_no_usable_routes startLat startLon endLat endLon profile
    (data : pyval) :
  Py.truthy (response_routes data) = false →
  basicRoute startLat startLon endLat endLon profile (Return data)
  = Return (PyDict
      {[ "error" := PyStr "No route found";
         "start" := PyDict {[ "lat" := startLat; "lon" := startLon ]};
         "end" := PyDict {[ "lat" := endLat; "lon" := endLon ]} ]}).
Proof.
  intros Hr. unfold basicRoute. cbn [mbind result_bind].
  assert ((if Py.is_dict data then Py.get data "routes" (PyList [])
           else Return (PyList [])) = Return (response_routes data)) as ->
    by by destruct data.
  cbn [mbind result_bind]. by rewrite Hr.
Qed.

(** X6: only the first route counts: changing the routes after the first
    one does not change what [basicRoute] returns or raises. *)
Theorem basicRoute_first_route_only startLat startLon endLat endLon profile
    (data : gmap string pyval) (route : pyval) (rest rest' : list pyval) :
  basicRoute startLat startLon endLat endLon profile
    (Return (PyDict (<["routes" := PyList (route :: rest)]> data)))
  = basicRoute startLat startLon endLat endLon profile
      (Return (PyDict (<["routes" := PyList (route :: rest')]> data))).
Proof.
  unfold basicRoute. cbn [mbind result_bind Py.is_dict Py.get].
  by rewrite !lookup_insert_eq.
Qed.

(** X7: the default [0] is for a missing key only. A first route whose
    [distance] is present and [null] makes [basicRoute] raise
    [TypeError]. *)
Theorem basicRoute_null_distance startLat startLon endLat endLon profile
    (data route : gmap string pyval) (rest : list pyval) :
  data !! "routes" = Some (PyList (PyDict route :: rest)) →
  route !! "distance" = Some PyNone →
  basicRoute startLat startLon endLat endLon profile (Return (PyDict data))
  = Raise (Exc TypeError
      "unsupported operand type(s) for /: 'NoneType' and 'float'").
Proof.
  intros Hroutes Hdist. unfold basicRoute.
  cbn [mbind result_bind Py.is_dict Py.get]. rewrite Hroutes.
  cbn [default id from_option Py.truthy negb Py.getitem0 mbind result_bind
       Py.get].
  by rewrite Hdist.
Qed.

(** X4: for a first route with float [distance] (meters) and [duration]
    (seconds) and well-formed legs, [basicRoute] returns [start], [end],
    [profile], [distanceKm = meters / 1000.0], [durationMin = seconds /
    60.0] and [steps]: one ["type - modifier - name"] summary per step, in
    order, leg after leg, empty or missing pieces left out. *)
Theorem basicRoute_payload startLat startLon endLat endLon profile
    (data route : gmap string pyval) (rest legs : list pyval)
    (meters seconds : float) :
  data !! "routes" = Some (PyList (PyDict route :: rest)) →
  route !! "distance" = Some (PyFloat meters) →
  route !! "duration" = Some (PyFloat seconds) →
  route !! "legs" = Some (PyList legs) →
  Forall leg_ok legs →
  basicRoute startLat startLon endLat endLon profile (Return (PyDict data))
  = Return (PyDict
      {[ "start" := PyDict {[ "lat" := startLat; "lon" := startLon ]};
         "end" := PyDict {[ "lat" := endLat; "lon" := endLon ]};
         "profile" := profile;
         "distanceKm" := PyFloat (meters / 1000);
         "durationMin" := PyFloat (seconds / 60);
         "steps" := PyList
           ((λ st, PyStr (step_summary st)) <$> (legs ≫= leg_steps)) ]}).
Proof.
  intros Hroutes Hdist Hdur Hlegs Hok. unfold basicRoute.
  cbn [mbind result_bind Py.is_dict Py.get]. rewrite Hroutes.
  cbn [default id from_option Py.truthy negb Py.getitem0 mbind result_bind
       Py.get].
  rewrite Hdist, Hdur. cbn [default id from_option Py.truediv_float].
  rewrite !truediv_value by reflexivity. cbn [mbind result_bind].
  by rewrite (route_steps_summaries route legs).
Qed.
End routes.

Section reverse.
Implicit Types (lat lon data : pyval).

Lemma address_city_spec (address : gmap string pyval) :
  address_city (PyDict address) = Return (city_of address).
Proof.
  unfold address_city, city_of, Py.or_else. cbn [Py.get mbind result_bind].
  destruct (Py.truthy (default PyNone (address !! "city"))) eqn:Hcity.
  - by rewrite Hcity.
  - cbn [mbind result_bind].
    destruct (Py.truthy (default PyNone (address !! "town"))) eqn:Htown;
      by rewrite ?Htown.
Qed.

(** X8: for a response object whose [address], if present, is an object,
    [reverseGeocode] returns a record of fixed shape: [lat], [lon],
    [displayName] and an [address] with all seven keys, [None] where
    upstream has nothing; [city] is the first truthy of [city], [town],
    [village]. *)
Theorem reverseGeocode_payload lat lon (data : gmap string pyval) :
  (∀ v, data !! "address" = Some v → Py.is_dict v = true) →
  reverseGeocode lat lon (Return (PyDict data))
  = Return (PyDict
      {[ "lat" := lat;
         "lon" := lon;
         "displayName" := default PyNone (data !! "display_name");
         "address" := PyDict
           {[ "road" := default PyNone (response_address data !! "road");
              "neighbourhood" :=
                default PyNone (response_address data !! "neighbourhood");
              "suburb" := default PyNone (response_address data !! "suburb");
              "city" := city_of (response_address data);
              "state" := default PyNone (response_address data !! "state");
              "postcode" := default PyNone (response_address data !! "postcode");
              "country" := default PyNone (response_address data !! "country")
           ]} ]}).
Proof.
  intros Haddr. unfold reverseGeocode, response_address.
  cbn [mbind result_bind Py.is_dict Py.get].
  destruct (data !! "address") as [v|]; cbn [default id from_option].
  - specialize (Haddr v eq_refl). destruct v; try done.
    cbn [mbind result_bind Py.get]. by rewrite address_city_spec.
  - cbn [mbind result_bind Py.get]. by rewrite address_city_spec.
Qed.

(** X9: the [isinstance] guard covers the address only. A response that
    is not an object makes [reverseGeocode] raise [AttributeError] (from
    [data.get("display_name")]). *)
Theorem reverseGeocode_not_an_object lat lon data :
  Py.is_dict data = false →
  reverseGeocode lat lon (Return data)
  = Raise (Exc AttributeError
      ("'" +:+ Py.type_name data +:+ "' object has no attribute 'get'")).
Proof. by destruct data. Qed.

(** X10: an [address] that is present and not an object ([null], say)
    makes [reverseGeocode] raise [AttributeError]. *)
Theorem reverseGeocode_address_not_an_object lat lon
    (data : gmap string pyval) (v : pyval) :
  data !! "address" = Some v → Py.is_dict v = false →
  reverseGeocode lat lon (Return (PyDict data))
  = Raise (Exc AttributeError
      ("'" +:+ Py.type_name v +:+ "' object has no attribute 'get'")).
Proof.
  intros Hv Hd. unfold reverseGeocode.
  cbn [mbind result_bind Py.is_dict Py.get]. rewrite Hv.
  by destruct v.
Qed.
End reverse.

(** ** tile_catalog_server: the catalog tools *)

(** X11: the names [listTileProviders] lists are exactly the names
    [get_provider_info] accepts. *)
Theorem listed_providers_resolve (name : string) :
  (∃ summary, summary ∈ listed_providers
              ∧ Py.getitem summary "name" = Return (PyStr name))
  ↔ ∃ info, get_provider_info name = Return info.
Proof.
  assert (listed_providers = provider_summary <$> map_to_list TILE_PROVIDERS)
    as -> by reflexivity.
  unfold get_provider_info. split.
  - intros (summary & Hin & Hname).
    apply list_elem_of_fmap in Hin as ([n info] & -> & Hin).
    apply elem_of_map_to_list in Hin. exists info.
    unfold provider_summary in Hname. cbn [Py.getitem fst snd] in Hname.
    rewrite lookup_insert_eq in Hname. injection Hname as <-. by rewrite Hin.
  - intros [info Hinfo].
    destruct (TILE_PROVIDERS !! name) as [info'|] eqn:Hn; [|done].
    exists (provider_summary (name, info')). split.
    + apply list_elem_of_fmap. exists (name, info'). split; [done|].
      by apply elem_of_map_to_list.
    + unfold provider_summary. cbn [Py.getitem fst snd].
      by rewrite lookup_insert_eq.
Qed.

(** ** Tile URLs are unambiguous *)

Section url_injective.
Local Arguments String.append !_ _ / : simpl nomatch.

Lemma str_app_inv_head p a b : p +:+ a = p +:+ b → a = b.
Proof. induction p as [|c p IH]; simpl; [done|]. intros [= H]. auto. Qed.

(** Two texts without [c], each followed by [c], split a string the same
    way. *)
Lemma split_at_char c d d' r r' :
  char_free c d = true → char_free c d' = true →
  d +:+ String c r = d' +:+ String c r' → d = d' ∧ r = r'.
Proof.
  unfold char_free. revert d'.
  induction d as [|a d IH]; intros [|a' d']; simpl;
    rewrite ?andb_true_iff, ?bool_decide_eq_true.
  - by intros _ _ [= ->].
  - intros _ [Ha' _] [= <- _]. done.
  - intros [Ha _] _ [= -> _]. done.
  - intros [_ Hd] [_ Hd'] [= -> H]. destruct (IH d' Hd Hd' H) as [-> ->]. done.
Qed.

Lemma decimal_char_free c s :
  decimal_char c = false →
  str_forall decimal_char s = true → char_free c s = true.
Proof.
  intros Hc. apply str_forall_impl. intros c' Hc'.
  apply bool_decide_eq_true. intros ->. congruence.
Qed.

(** X12: [getOsmTileUrl] gives different URLs to different integer tile
    coordinates. *)
Theorem getOsmTileUrl_injective (z x y z' x' y' : Z) :
  getOsmTileUrl (TInt z) (TInt x) (TInt y)
  = getOsmTileUrl (TInt z') (TInt x') (TInt y') →
  z = z' ∧ x = x' ∧ y = y'.
Proof.
  unfold getOsmTileUrl, str. intros H%str_app_inv_head.
  destruct (pretty_Z_decimal z) as [Hz _], (pretty_Z_decimal z') as [Hz' _].
  destruct (pretty_Z_decimal x) as [Hx _], (pretty_Z_decimal x') as [Hx' _].
  destruct (pretty_Z_decimal y) as [Hy _], (pretty_Z_decimal y') as [Hy' _].
  apply (split_at_char "/") in H as [Ez H];
    [|by apply decimal_char_free..].
  apply (split_at_char "/") in H as [Ex H];
    [|by apply decimal_char_free..].
  apply (split_at_char ".") in H as [Ey _];
    [|by apply decimal_char_free..].
  by apply (inj pretty) in Ez, Ex, Ey.
Qed.
End url_injective.

Lemma getOsmTileUrl_injective_witness :
  getOsmTileUrl (TInt 14) (TInt 9806) (TInt 6550)
  = getOsmTileUrl (TInt 14) (TInt 9806) (TInt 6550)
  ∧ 14%Z = 14%Z ∧ 9806%Z = 9806%Z ∧ 6550%Z = 6550%Z.
Proof.
  split; [reflexivity|].
  apply (getOsmTileUrl_injective 14 9806 6550 14 9806 6550). reflexivity.
Defined.

(** ** The tile index at the edges of its domain *)

Section tile_index_edges.
Context (libm : Libm).
Local Open Scope float_scope.

Lemma antimeridian_table : forallb antimeridian_ok (seqZ 0 1024) = true.
Proof. vm_compute. reflexivity. Qed.

Lemma antimeridian_spec zoom :
  (0 ≤ zoom ≤ 1023)%Z →
  x_tile 180 (inl (2 ^ zoom)%Z) ≫= Flt.to_int = Return (2 ^ zoom)%Z
  ∧ x_tile (-180) (inl (2 ^ zoom)%Z) ≫= Flt.to_int = Return 0%Z.
Proof.
  intros Hz. pose proof antimeridian_table as Ht.
  rewrite forallb_forall in Ht.
  assert (In zoom (seqZ 0 1024)) as Hin.
  { apply list_elem_of_In, elem_of_seqZ. lia. }
  apply Ht in Hin. unfold antimeridian_ok in Hin.
  destruct (x_tile 180 _ ≫= Flt.to_int) as [east|]; [|done].
  destruct (x_tile (-180) _ ≫= Flt.to_int) as [west|]; [|done].
  apply andb_true_iff in Hin as [He Hw].
  apply Z.eqb_eq in He, Hw. by subst.
Qed.

(** X13: for every [zoom] of [0..1023] and any latitude whose [y] is
    computed, longitude 180 gives [x = 2^zoom], one past the last column,
    and longitude -180 gives [x = 0]. *)
Theorem lat_lon_to_tile_indices_antimeridian lat zoom yt y :
  (0 ≤ zoom ≤ 1023)%Z →
  y_tile libm lat (inl (2 ^ zoom)%Z) = Return yt →
  Flt.to_int yt = Return y →
  lat_lon_to_tile_indices libm lat 180 zoom = Return (2 ^ zoom, y)%Z
  ∧ lat_lon_to_tile_indices libm lat (-180) zoom = Return (0, y)%Z.
Proof.
  intros Hz Hy Hyi. destruct (antimeridian_spec zoom Hz) as [He Hw].
  unfold lat_lon_to_tile_indices. rewrite pow2_nonneg by lia.
  cbn [mbind result_bind].
  destruct (x_tile 180 _) as [xe|]; [|done].
  destruct (x_tile (-180) _) as [xw|]; [|done].
  cbn [mbind result_bind] in *. rewrite Hy. cbn [mbind result_bind].
  rewrite He, Hw. cbn [mbind result_bind]. by rewrite Hyi.
Qed.

(** X14: for every [zoom] of [0..1023] and every longitude, when
    [tan(lat_rad) + 1/cos(lat_rad)] is a finite float that is not positive
    (the library values being finite, the cosine not zero), the function
    raises [ValueError], the domain error of [math.log]. *)
Theorem lat_lon_to_tile_indices_domain_error lat lon zoom t c :
  (0 ≤ zoom ≤ 1023)%Z →
  c_tan libm (Math.radians lat) = t →
  c_cos libm (Math.radians lat) = c →
  is_finite t = true → is_finite c = true → is_zero c = false →
  is_finite (t + 1 / c) = true → (0 <? t + 1 / c) = false →
  lat_lon_to_tile_indices libm lat lon zoom
  = Raise (Exc ValueError "math domain error").
Proof.
  intros Hz Ht Hc Hft Hfc Hzc Hfs Hpos. unfold lat_lon_to_tile_indices.
  rewrite pow2_nonneg by lia. cbn [mbind result_bind].
  unfold x_tile. rewrite num_mul_two_pow by done. cbn [mbind result_bind].
  by rewrite (y_tile_domain_error libm _ _ _ _ Ht Hc).
Qed.
End tile_index_edges.

Lemma lat_lon_to_tile_indices_antimeridian_witness :
  lat_lon_to_tile_indices glibc lat_hamra 180 14 = Return (2 ^ 14, 6550)%Z
  ∧ lat_lon_to_tile_indices glibc lat_hamra (-180) 14 = Return (0, 6550)%Z.
Proof.
  apply (lat_lon_to_tile_indices_antimeridian glibc lat_hamra 14
           0x1.996a6faaa96d1p+12);
    [lia|vm_compute; reflexivity..].
Defined.

Lemma lat_lon_to_tile_indices_domain_error_witness :
  lat_lon_to_tile_indices glibc (-90) lon_hamra 14
  = Raise (Exc ValueError "math domain error").
Proof.
  apply (lat_lon_to_tile_indices_domain_error glibc (-90) lon_hamra 14
           (- tan_pole) cos_pole);
    [lia|vm_compute; reflexivity..].
Defined.

(** ** The range of [int(f)], conversely *)

Section truncation_converse.
Local Open Scope Z_scope.

Lemma digits2_pos_lower m : 2 ^ (Z.pos (digits2_pos m) - 1) ≤ Z.pos m.
Proof.
  induction m as [m IH|m IH|]; simpl; [| |done];
    rewrite Pos2Z.inj_succ;
    replace (Z.succ (Z.pos (digits2_pos m)) - 1)
      with (Z.succ (Z.pos (digits2_pos m) - 1)) by lia;
    rewrite Z.pow_succ_r by lia; lia.
Qed.

(** A valid mantissa is normal (53 bits) unless the exponent is the least. *)
Lemma valid_mantissa_normal s m e :
  valid_binary (S754_finite s m e) = true →
  -1074 < e → 2 ^ 52 ≤ Z.pos m.
Proof.
  unfold valid_binary, bounded, canonical_mantissa, fexp, emin, prec, emax.
  intros [Hc _]%andb_true_iff He. apply Z.eqb_eq in Hc.
  assert (Z.pos (digits2_pos m) = 53) as Hd by lia.
  pose proof (digits2_pos_lower m) as Hm. by rewrite Hd in Hm.
Qed.

Lemma valid_exponent_lower s m e :
  valid_binary (S754_finite s m e) = true → -1074 ≤ e.
Proof.
  unfold valid_binary, bounded, canonical_mantissa, fexp, emin, prec, emax.
  intros [Hc _]%andb_true_iff. apply Z.eqb_eq in Hc. lia.
Qed.

Lemma shiftl_ge m e j :
  2 ^ j ≤ m → 0 ≤ j → 0 ≤ j + e → 2 ^ (j + e) ≤ Z.shiftl m e.
Proof.
  intros Hm Hj Hje. destruct (Z.le_gt_cases 0 e) as [He|He].
  - rewrite Z.shiftl_mul_pow2, Z.pow_add_r by done.
    apply Z.mul_le_mono_nonneg_r; [by apply Z.pow_nonneg|done].
  - rewrite Z.shiftl_div_pow2 by lia.
    replace (j + e) with (j - - e) by lia.
    rewrite Z.pow_sub_r by lia.
    apply Z.div_le_mono; [apply Z.pow_pos_nonneg; lia|done].
Qed.

Lemma SFltb_pos_pos_intro m1 e1 m2 e2 :
  e1 < e2 ∨ (e1 = e2 ∧ Z.pos m1 < Z.pos m2) →
  SFltb (S754_finite false m1 e1) (S754_finite false m2 e2) = true.
Proof.
  unfold SFltb, SFcompare. intros [He|[-> Hm]].
  - by rewrite (proj2 (Z.compare_lt_iff e1 e2)).
  - rewrite Z.compare_refl.
    change (Pos.compare_cont Eq m1 m2) with (Pos.compare m1 m2).
    by rewrite (proj2 (Pos.compare_lt_iff m1 m2)).
Qed.

Lemma SFltb_neg_neg_intro m1 e1 m2 e2 :
  e2 < e1 ∨ (e1 = e2 ∧ Z.pos m2 < Z.pos m1) →
  SFltb (S754_finite true m1 e1) (S754_finite true m2 e2) = true.
Proof.
  unfold SFltb, SFcompare. intros [He|[-> Hm]].
  - by rewrite (proj2 (Z.compare_gt_iff e1 e2)).
  - rewrite Z.compare_refl.
    change (Pos.compare_cont Eq m1 m2) with (Pos.compare m1 m2).
    by rewrite (proj2 (Pos.compare_gt_iff m1 m2)).
Qed.

(** [int(f)] is in [0, 2^zoom) only for a float strictly between [-1] and
    [2 ** zoom]. *)
Lemma to_int_in_range_inv (f : float) zoom k :
  0 ≤ zoom ≤ 1023 →
  Flt.to_int f = Return k → 0 ≤ k < 2 ^ zoom →
  (-1 <? f)%float = true ∧ (f <? two_pow zoom)%float = true.
Proof.
  intros Hz Hk Hr. rewrite !ltb_spec.
  destruct (two_pow_spec zoom Hz) as [_ ->].
  assert (Prim2SF (-1) = S754_finite true 4503599627370496 (-52)) as ->
    by (vm_compute; reflexivity).
  pose proof (Prim2SF_valid f) as Hv. unfold Flt.to_int in Hk.
  assert (Z.pos 4503599627370496 = 2 ^ 52) as H52 by reflexivity.
  destruct (Prim2SF f) as [s|s| |s m e]; try done.
  injection Hk as <-.
  { pose proof (valid_mantissa_bound _ _ _ Hv) as Hm.
    pose proof (valid_exponent_lower _ _ _ Hv) as He.
    pose proof (valid_mantissa_normal _ _ _ Hv) as Hn.
    clear Hv. destruct s; unfold cond_Zopp in Hr.
    + split; [|done]. apply SFltb_neg_neg_intro. rewrite H52. clear H52.
      destruct (Z.le_gt_cases e (-53)) as [He'|He']; [left; lia|].
      exfalso. specialize (Hn ltac:(lia)).
      pose proof (shiftl_ge (Z.pos m) e 52 Hn ltac:(lia)) as Hs.
      destruct (Z.le_gt_cases 0 (52 + e)) as [Hj|Hj].
      * specialize (Hs Hj).
        assert (0 < 2 ^ (52 + e)) by (apply Z.pow_pos_nonneg; lia).
        clear -Hs Hr H. lia.
      * assert (e = -53) by lia. lia.
    + split; [done|]. apply SFltb_pos_pos_intro. rewrite H52. clear H52.
      destruct (Z.le_gt_cases (zoom - 52) e) as [He'|He']; [|left; lia].
      exfalso. specialize (Hn ltac:(lia)).
      pose proof (shiftl_ge (Z.pos m) e 52 Hn ltac:(lia) ltac:(lia)) as Hs.
      assert (2 ^ zoom ≤ 2 ^ (52 + e)) by (apply Z.pow_le_mono_r; lia).
      clear -Hs Hr H. lia. }
Qed.
End truncation_converse.

(** ** Resolved URLs keep no placeholder *)

Section placeholders.
Local Arguments String.append !_ _ / : simpl nomatch.
Implicit Types (a b c : ascii) (old d t : string).

Lemma avoids_first_char a b c d :
  avoids (String a (String b (String c ""))) d = true →
  str_forall (λ c', bool_decide (c' ≠ a)) d = true.
Proof.
  apply str_forall_impl. intros c'. rewrite !bool_decide_eq_true.
  intros Hc ->. apply Hc. simpl. set_solver.
Qed.

Lemma avoids_head a b c (d0 : ascii) d :
  avoids (String a (String b (String c ""))) (String d0 d) = true →
  d0 ≠ a ∧ d0 ≠ b ∧ d0 ≠ c.
Proof.
  unfold avoids. simpl. rewrite andb_true_iff, bool_decide_eq_true.
  intros [Hc _]. set_solver.
Qed.

(** Replacing by text that avoids the characters of a three-character
    token creates no occurrence of the token. *)
Lemma no_new_token a b c old d t :
  old ≠ "" → d ≠ "" →
  avoids (String a (String b (String c ""))) d = true →
  Str.contains (String a (String b (String c ""))) (Str.replace_go old d 0 t)
    = true →
  Str.contains (String a (String b (String c ""))) t = true.
Proof.
  intros Hold Hd Hfree. destruct d as [|d0 d']; [done|].
  destruct (avoids_head _ _ _ _ _ Hfree) as (Hd1 & Hd2 & Hd3).
  remember (String.length t) as n eqn:Hn.
  revert t Hn. induction (lt_wf n) as [n _ IH]. intros t -> Hc.
  destruct t as [|c0 t]; [done|].
  destruct (String.prefix old (String c0 t)) eqn:Hp.
  { destruct (prefix_split _ _ Hp) as [u Hu]. rewrite Hu in Hc |- *.
    rewrite replace_go_match in Hc by done.
    rewrite contains_through in Hc by by eapply avoids_first_char.
    apply contains_append, (IH (String.length u)); [|done..].
    rewrite Hu, str_length_app. destruct old; [done|simpl; lia]. }
  rewrite replace_go_keep in Hc by done.
  cbn [Str.contains] in Hc. apply orb_true_iff in Hc as [Hc|Hc]; cycle 1.
  { apply contains_cons, (IH (String.length t)); [simpl; lia|done..]. }
  apply prefix_cons_true in Hc as [<- Hc].
  destruct (replace_go_head old (String d0 d') t Hold)
    as [->|[[u Hu]|(c2 & t2 & -> & Hu)]]; [done|..]; rewrite Hu in Hc.
  { change (String d0 d' +:+ u) with (String d0 (d' +:+ u)) in Hc.
    by apply prefix_cons_true in Hc as [? _]. }
  apply prefix_cons_true in Hc as [<- Hc].
  destruct (replace_go_head old (String d0 d') t2 Hold)
    as [->|[[u Hu2]|(c3 & t3 & -> & Hu2)]]; [done|..]; rewrite Hu2 in Hc.
  { change (String d0 d' +:+ u) with (String d0 (d' +:+ u)) in Hc.
    by apply prefix_cons_true in Hc as [? _]. }
  apply prefix_cons_true in Hc as [<- Hc].
  apply contains_prefix. cbn [String.prefix].
  repeat (destruct (ascii_dec _ _); [|done]). by destruct t3.
Qed.

(** Replacing a three-character token leaves no occurrence of it. *)
Lemma token_removed a b c d t :
  d ≠ "" →
  avoids (String a (String b (String c ""))) d = true →
  Str.contains (String a (String b (String c "")))
    (Str.replace_go (String a (String b (String c ""))) d 0 t) = false.
Proof.
  intros Hd Hfree.
  assert (String a (String b (String c "")) ≠ "") as Htok by done.
  destruct d as [|d0 d']; [done|].
  destruct (avoids_head _ _ _ _ _ Hfree) as (Hd1 & Hd2 & Hd3).
  remember (String.length t) as n eqn:Hn.
  revert t Hn. induction (lt_wf n) as [n _ IH]. intros t ->.
  destruct t as [|c0 t]; [done|].
  destruct (String.prefix (String a (String b (String c ""))) (String c0 t)) eqn:Hp.
  { destruct (prefix_split _ _ Hp) as [u Hu]. rewrite Hu.
    rewrite replace_go_match by done.
    rewrite contains_through by by eapply avoids_first_char.
    apply (IH (String.length u)); [|done].
    rewrite Hu, str_length_app. simpl. lia. }
  rewrite replace_go_keep by done. cbn [Str.contains].
  rewrite (IH (String.length t)) by (simpl; lia || done).
  rewrite orb_false_r. apply not_true_is_false. intros Hc.
  apply prefix_cons_true in Hc as [<- Hc].
  destruct (replace_go_head (String a (String b (String c ""))) (String d0 d') t Htok)
    as [->|[[u Hu]|(c2 & t2 & -> & Hu)]]; [done|..]; rewrite Hu in Hc.
  { change (String d0 d' +:+ u) with (String d0 (d' +:+ u)) in Hc.
    by apply prefix_cons_true in Hc as [? _]. }
  apply prefix_cons_true in Hc as [<- Hc].
  destruct (replace_go_head (String a (String b (String c ""))) (String d0 d') t2 Htok)
    as [->|[[u Hu2]|(c3 & t3 & -> & Hu2)]]; [done|..]; rewrite Hu2 in Hc.
  { change (String d0 d' +:+ u) with (String d0 (d' +:+ u)) in Hc.
    by apply prefix_cons_true in Hc as [? _]. }
  apply prefix_cons_true in Hc as [<- Hc].
  revert Hp. cbn [String.prefix].
  repeat (destruct (ascii_dec _ _); [|done]). by destruct t3.
Qed.

Lemma keep_absent a b c old d t :
  old ≠ "" → d ≠ "" →
  avoids (String a (String b (String c ""))) d = true →
  Str.contains (String a (String b (String c ""))) t = false →
  Str.contains (String a (String b (String c ""))) (Str.replace_go old d 0 t)
    = false.
Proof.
  intros Hold Hd Hfree Ht.
  destruct (Str.contains _ (Str.replace_go _ _ _ _)) eqn:Hc; [|done].
  apply no_new_token in Hc; [congruence|done..].
Qed.

Lemma avoids_placeholder tok d :
  tok ∈ placeholders → avoids "{zxys}" d = true → avoids tok d = true.
Proof.
  intros Htok. apply str_forall_impl. intros ch.
  unfold placeholders in Htok.
  repeat (apply elem_of_cons in Htok as [->|Htok]);
    [..|by apply elem_of_nil in Htok];
    by destruct ch as [[] [] [] [] [] [] [] []]; vm_compute.
Qed.

Lemma decimal_avoids s :
  str_forall decimal_char s = true → avoids "{zxys}" s = true.
Proof.
  apply str_forall_impl. intros ch. unfold decimal_char.
  by destruct ch as [[] [] [] [] [] [] [] []]; vm_compute.
Qed.

(** X16: with integer [z], [x], [y] and a plain subdomain (absent, or
    non-empty text without braces and token letters), the resolved URL
    contains none of [{z}], [{x}], [{y}], [{s}], whatever the template. *)
Theorem build_tile_url_fully_resolved template (z x y : Z) subdomain tok :
  plain_subdomain subdomain →
  tok ∈ placeholders →
  Str.contains tok
    (build_tile_url_from_template template (TInt z) (TInt x) (TInt y)
       subdomain) = false.
Proof.
  intros Hsub Htok. unfold build_tile_url_from_template, str.
  destruct (pretty_Z_decimal z) as [Hz%decimal_avoids Hz0].
  destruct (pretty_Z_decimal x) as [Hx%decimal_avoids Hx0].
  destruct (pretty_Z_decimal y) as [Hy%decimal_avoids Hy0].
  revert Hz Hz0 Hx Hx0 Hy Hy0.
  generalize (pretty z) (pretty x) (pretty y). intros dz dx dy Hz Hz0 Hx Hx0 Hy Hy0.
  assert (default "a" subdomain ≠ "" ∧ avoids "{zxys}" (default "a" subdomain) = true)
    as [Hs0 Hs].
  { destruct subdomain as [s|]; [exact Hsub|done]. }
  revert Hs0 Hs. generalize (default "a" subdomain). intros ds Hs0 Hs.
  unfold Str.replace.
  pose proof (avoids_placeholder tok dz Htok Hz) as Hz'.
  pose proof (avoids_placeholder tok dx Htok Hx) as Hx'.
  pose proof (avoids_placeholder tok dy Htok Hy) as Hy'.
  pose proof (avoids_placeholder tok ds Htok Hs) as Hs'.
  unfold placeholders in Htok.
  repeat (apply elem_of_cons in Htok as [->|Htok]);
    [..|by apply elem_of_nil in Htok].
  - assert (Str.contains "{z}" (Str.replace_go "{y}" dy 0
      (Str.replace_go "{x}" dx 0 (Str.replace_go "{z}" dz 0 template))) = false)
      as H3.
    { do 2 (apply keep_absent; [done..|]). by apply token_removed. }
    destruct (Str.contains "{s}" _); [|done]. by apply keep_absent.
  - assert (Str.contains "{x}" (Str.replace_go "{y}" dy 0
      (Str.replace_go "{x}" dx 0 (Str.replace_go "{z}" dz 0 template))) = false)
      as H3.
    { apply keep_absent; [done..|]. by apply token_removed. }
    destruct (Str.contains "{s}" _); [|done]. by apply keep_absent.
  - assert (Str.contains "{y}" (Str.replace_go "{y}" dy 0
      (Str.replace_go "{x}" dx 0 (Str.replace_go "{z}" dz 0 template))) = false)
      as H3 by by apply token_removed.
    destruct (Str.contains "{s}" _); [|done]. by apply keep_absent.
  - destruct (Str.contains "{s}" (Str.replace_go "{y}" dy 0
      (Str.replace_go "{x}" dx 0 (Str.replace_go "{z}" dz 0 template))))
      eqn:H3; [|done].
    by apply token_removed.
Qed.
End placeholders.

Lemma build_tile_url_fully_resolved_witness :
  Str.contains "{x}"
    (build_tile_url_from_template
       "https://{s}.tile.openstreetmap.org/{z}/{x}/{y}.png"
       (TInt 14) (TInt 9806) (TInt 6550) (Some "b")) = false.
Proof.
  apply build_tile_url_fully_resolved.
  - split; [discriminate|reflexivity].
  - unfold placeholders. apply elem_of_cons. right.
    apply elem_of_cons. left. reflexivity.
Defined.

(** ** The tile index is in range exactly when the products are *)

Section tile_index_exact.
Context (libm : Libm).
Local Open Scope float_scope.

(** X15: for [zoom] in [0..1023], once the two products are computed, the
    function returns indices with [0 <= x, y < 2^zoom] if and only if both
    products lie strictly between [-1] and [2 ** zoom]. *)
Theorem tile_indices_in_range_iff lat lon zoom xt yt :
  (0 ≤ zoom ≤ 1023)%Z →
  x_tile lon (inl (2 ^ zoom)%Z) = Return xt →
  y_tile libm lat (inl (2 ^ zoom)%Z) = Return yt →
  (∃ x y,
     lat_lon_to_tile_indices libm lat lon zoom = Return (x, y)
     ∧ (0 ≤ x < 2 ^ zoom)%Z ∧ (0 ≤ y < 2 ^ zoom)%Z)
  ↔ ((-1 <? xt) && (xt <? two_pow zoom)
     && (-1 <? yt) && (yt <? two_pow zoom)) = true.
Proof.
  intros Hz Hx Hy. rewrite !andb_true_iff. split.
  - intros (x & y & H & Hxr & Hyr). unfold lat_lon_to_tile_indices in H.
    rewrite pow2_nonneg in H by lia. cbn [mbind result_bind] in H.
    rewrite Hx in H. cbn [mbind result_bind] in H.
    rewrite Hy in H. cbn [mbind result_bind] in H.
    destruct (Flt.to_int xt) as [x'|] eqn:Hxi; [|done].
    cbn [mbind result_bind] in H.
    destruct (Flt.to_int yt) as [y'|] eqn:Hyi; [|done].
    injection H as -> ->.
    destruct (to_int_in_range_inv xt zoom x Hz Hxi Hxr) as [??].
    destruct (to_int_in_range_inv yt zoom y Hz Hyi Hyr) as [??].
    done.
  - intros [[[Hx1 Hx2] Hy1] Hy2].
    destruct (to_int_in_range xt zoom Hz Hx1 Hx2) as (x & Hxi & Hxr).
    destruct (to_int_in_range yt zoom Hz Hy1 Hy2) as (y & Hyi & Hyr).
    exists x, y. split; [|done].
    eapply lat_lon_to_tile_indices_value; [|done..].
    apply pow2_nonneg. lia.
Qed.
End tile_index_exact.

(** ** Instances of the properties above *)

Lemma tile_indices_in_range_iff_witness :
  (∃ x y,
     lat_lon_to_tile_indices glibc 90 lon_hamra 2 = Return (x, y)
     ∧ (0 ≤ x < 2 ^ 2)%Z ∧ (0 ≤ y < 2 ^ 2)%Z)
  ↔ ((-1 <? two_pow 2 * ((lon_hamra + 180) / 360))
     && (two_pow 2 * ((lon_hamra + 180) / 360) <? two_pow 2)
     && (-1 <? two_pow 2 * (1 - log_pole / Flt.math_pi) / 2)
     && (two_pow 2 * (1 - log_pole / Flt.math_pi) / 2 <? two_pow 2))%float
    = true.
Proof.
  apply (tile_indices_in_range_iff glibc 90 lon_hamra 2);
    [lia|vm_compute; reflexivity..].
Defined.

Lemma geocodeAddress_results_witness :
  geocodeAddress (λ s, if String.eqb s "33.9" then Some 0x1.0f33333333333p+5%float else None)
    (PyStr "Hamra") (PyInt 3)
    (Return (PyList
       [PyDict {[ "lat" := PyStr "33.9"; "lon" := PyFloat 35.5;
                  "display_name" := PyStr "Hamra" ]};
        PyDict {[ "lat" := PyStr "north"; "lon" := PyFloat 35.5 ]};
        PyDict {[ "lon" := PyFloat 35.5 ]}]))
  = Return (PyDict
      {[ "query" := PyStr "Hamra";
         "results" := PyList
           (omap (geocode_entry
                    (λ s, if String.eqb s "33.9"
                          then Some 0x1.0f33333333333p+5%float else None))
              [PyDict {[ "lat" := PyStr "33.9"; "lon" := PyFloat 35.5;
                         "display_name" := PyStr "Hamra" ]};
               PyDict {[ "lat" := PyStr "north"; "lon" := PyFloat 35.5 ]};
               PyDict {[ "lon" := PyFloat 35.5 ]}]) ]}).
Proof.
  apply geocodeAddress_results.
  repeat (apply Forall_cons; split; [vm_compute; exact (conj I I)|]).
  apply Forall_nil_2.
Defined.

Lemma searchPois_results_witness :
  ∃ pois,
    searchPois (PyStr "cafe") (PyFloat 33.5) (PyFloat 35.5) (PyInt 800)
      (PyInt 1)
      (Return (PyDict {[ "elements" := PyList
         [PyDict {[ "type" := PyStr "node";
                    "tags" := PyDict {[ "name" := PyStr "Younes" ]} ]};
          PyNone] ]}))
    = Return (PyDict
        {[ "center" := PyDict {[ "lat" := PyFloat 33.5; "lon" := PyFloat 35.5 ]};
           "search" := PyDict {[ "keyword" := PyStr "cafe";
                                 "radiusM" := PyInt 800 ]};
           "results" := PyList pois ]})
    ∧ pois = omap poi_entry (take (Z.to_nat 1)
        [PyDict {[ "type" := PyStr "node";
                   "tags" := PyDict {[ "name" := PyStr "Younes" ]} ]};
         PyNone])
    ∧ (Z.of_nat (length pois) ≤ 1)%Z.
Proof.
  apply searchPois_results; [reflexivity|lia|].
  apply Forall_cons. split; [|apply Forall_nil_2].
  intros _. vm_compute. exact I.
Defined.

Lemma searchPois_no_elements_witness :
  searchPois (PyStr "cafe") (PyFloat 33.5) (PyFloat 35.5) (PyInt 800)
    (PyInt 5) (Return (PyList []))
  = Return (PyDict
      {[ "center" := PyDict {[ "lat" := PyFloat 33.5; "lon" := PyFloat 35.5 ]};
         "search" := PyDict {[ "keyword" := PyStr "cafe";
                               "radiusM" := PyInt 800 ]};
         "results" := PyList [] ]}).
Proof. apply searchPois_no_elements; exact I. Defined.

Lemma basicRoute_payload_witness :
  basicRoute (PyFloat 1) (PyFloat 2) (PyFloat 3) (PyFloat 4) (PyStr "foot")
    (Return (PyDict {[ "routes" := PyList
       [PyDict {[ "distance" := PyFloat 1500; "duration" := PyFloat 120;
                  "legs" := PyList
                    [PyDict {[ "steps" := PyList
                       [PyDict {[ "name" := PyStr "Bliss";
                                  "maneuver" := PyDict
                                    {[ "type" := PyStr "turn";
                                       "modifier" := PyStr "" ]} ]}] ]}] ]}]
    ]}))
  = Return (PyDict
      {[ "start" := PyDict {[ "lat" := PyFloat 1; "lon" := PyFloat 2 ]};
         "end" := PyDict {[ "lat" := PyFloat 3; "lon" := PyFloat 4 ]};
         "profile" := PyStr "foot";
         "distanceKm" := PyFloat (1500 / 1000);
         "durationMin" := PyFloat (120 / 60);
         "steps" := PyList
           ((λ st, PyStr (step_summary st)) <$>
            ([PyDict {[ "steps" := PyList
                [PyDict {[ "name" := PyStr "Bliss";
                           "maneuver" := PyDict
                             {[ "type" := PyStr "turn";
                                "modifier" := PyStr "" ]} ]}] ]}]
             ≫= leg_steps)) ]}).
Proof.
  eapply basicRoute_payload; [reflexivity..|].
  apply Forall_cons. split; [|apply Forall_nil_2].
  vm_compute. apply Forall_cons. split; [|apply Forall_nil_2].
  vm_compute. exact (conj I (conj I I)).
Defined.

Lemma basicRoute_no_usable_routes_witness :
  basicRoute (PyFloat 1) (PyFloat 2) (PyFloat 3) (PyFloat 4) (PyStr "foot")
    (Return (PyDict {[ "code" := PyStr "NoRoute"; "routes" := PyNone ]}))
  = Return (PyDict
      {[ "error" := PyStr "No route found";
         "start" := PyDict {[ "lat" := PyFloat 1; "lon" := PyFloat 2 ]};
         "end" := PyDict {[ "lat" := PyFloat 3; "lon" := PyFloat 4 ]} ]}).
Proof. apply basicRoute_no_usable_routes. reflexivity. Defined.

Lemma basicRoute_null_distance_witness :
  basicRoute (PyFloat 1) (PyFloat 2) (PyFloat 3) (PyFloat 4) (PyStr "foot")
    (Return (PyDict {[ "routes" := PyList
       [PyDict {[ "distance" := PyNone; "duration" := PyFloat 120 ]}] ]}))
  = Raise (Exc TypeError
      "unsupported operand type(s) for /: 'NoneType' and 'float'").
Proof.
  apply (basicRoute_null_distance _ _ _ _ _ _
    {[ "distance" := PyNone; "duration" := PyFloat 120 ]} []); reflexivity.
Defined.

Lemma reverseGeocode_payload_witness :
  reverseGeocode (PyFloat 34) (PyFloat 35)
    (Return (PyDict {[ "display_name" := PyStr "Jbeil";
                       "address" := PyDict {[ "town" := PyStr "Jbeil" ]} ]}))
  = Return (PyDict
      {[ "lat" := PyFloat 34;
         "lon" := PyFloat 35;
         "displayName" := PyStr "Jbeil";
         "address" := PyDict
           {[ "road" := PyNone;
              "neighbourhood" := PyNone;
              "suburb" := PyNone;
              "city" := PyStr "Jbeil";
              "state" := PyNone;
              "postcode" := PyNone;
              "country" := PyNone ]} ]}).
Proof.
  etrans.
  - apply (reverseGeocode_payload (PyFloat 34) (PyFloat 35)
      {[ "display_name" := PyStr "Jbeil";
         "address" := PyDict {[ "town" := PyStr "Jbeil" ]} ]}).
    intros v Hv. vm_compute in Hv. injection Hv as <-. reflexivity.
  - vm_compute. reflexivity.
Defined.

Lemma reverseGeocode_not_an_object_witness :
  reverseGeocode (PyFloat 34) (PyFloat 35) (Return (PyList []))
  = Raise (Exc AttributeError "'list' object has no attribute 'get'").
Proof. apply (reverseGeocode_not_an_object _ _ (PyList [])). reflexivity. Defined.

Lemma reverseGeocode_address_not_an_object_witness :
  reverseGeocode (PyFloat 34) (PyFloat 35)
    (Return (PyDict {[ "address" := PyNone ]}))
  = Raise (Exc AttributeError "'NoneType' object has no attribute 'get'").
Proof.
  apply (reverseGeocode_address_not_an_object _ _ {[ "address" := PyNone ]}
    PyNone); reflexivity.
Defined.

(** X17: a response that is a non-empty object (an error document, say)
    instead of a list makes [geocodeAddress] raise [TypeError]: the loop
    runs over the keys, and a string cannot be subscripted by ["lat"]. *)
Theorem geocodeAddress_object_response (float_of_str : string → option float)
    (query limit : pyval) (data : gmap string pyval) :
  data ≠ ∅ →
  geocodeAddress float_of_str query limit (Return (PyDict data))
  = Raise (Exc TypeError "string indices must be integers, not 'str'").
Proof.
  intros Hne. unfold geocodeAddress. cbn [mbind result_bind Py.iter].
  destruct (map_to_list data) as [|[k v] l] eqn:Hl.
  - by apply map_to_list_empty_iff in Hl.
  - done.
Qed.

Lemma geocodeAddress_object_response_witness :
  geocodeAddress (λ _, None) (PyStr "Hamra") (PyInt 3)
    (Return (PyDict {[ "error" := PyStr "Unable to geocode" ]}))
  = Raise (Exc TypeError "string indices must be integers, not 'str'").
Proof.
  apply geocodeAddress_object_response.
  intros H. apply (f_equal (λ m, m !! "error")) in H. vm_compute in H.
  discriminate H.
Defined.

(** ** Floats: bounds that survive rounding

    The binary64 operations round to nearest, ties to even
    ([binary_round_aux] of the specification of the primitive floats).
    A bound that is itself a double is kept by rounding: if the exact
    result is at most a valid float [b], so is the rounded one. The
    section proves this for the sum, the difference, the product and the
    quotient as the tile index uses them. *)

Section rounding.
Local Open Scope Z_scope.

Lemma weight_shift m e n :
  0 ≤ n → -4400 ≤ e → weight m (e + n) = weight (m * 2 ^ n) e.
Proof.
  intros Hn He. unfold weight.
  replace (e + n + 4400) with (n + (e + 4400)) by lia.
  rewrite Z.pow_add_r by lia. lia.
Qed.

Lemma weight_le m m' e : m ≤ m' → weight m e ≤ weight m' e.
Proof.
  intros H. unfold weight. apply Z.mul_le_mono_nonneg_r; [|done].
  apply Z.pow_nonneg. lia.
Qed.

Lemma weight_lt m m' e : -4400 ≤ e → m < m' → weight m e < weight m' e.
Proof.
  intros He H. unfold weight. apply Z.mul_lt_mono_pos_r; [|done].
  apply Z.pow_pos_nonneg; lia.
Qed.

Lemma weight_lt_inv m m' e : weight m e < weight m' e → m < m'.
Proof.
  unfold weight. intros H. apply Z.mul_lt_mono_pos_r in H; [done|].
  destruct (Z.le_gt_cases 0 (e + 4400)).
  - apply Z.pow_pos_nonneg; lia.
  - rewrite Z.pow_neg_r in H by lia. lia.
Qed.

Lemma weight_pow k e :
  0 ≤ k → -4400 ≤ e → weight (2 ^ k) e = 2 ^ (k + e + 4400).
Proof.
  intros Hk He. unfold weight. rewrite <- Z.pow_add_r by lia.
  f_equal. lia.
Qed.

Lemma weight_add a b e : weight (a + b) e = weight a e + weight b e.
Proof. unfold weight. lia. Qed.

Lemma weight_opp a e : weight (- a) e = - weight a e.
Proof. unfold weight. lia. Qed.

Lemma Zdigits2_bounds m :
  0 < m → 2 ^ (Zdigits2 m - 1) ≤ m < 2 ^ Zdigits2 m.
Proof.
  destruct m as [|p|p]; [lia| |lia]. intros _. simpl.
  split; [apply digits2_pos_lower|apply digits2_pos_bound].
Qed.

Lemma Zdigits2_nonneg m : 0 ≤ Zdigits2 m.
Proof. destruct m; simpl; lia. Qed.

Lemma shr_rel_refl x : 0 ≤ shr_m x → shr_rel 0 x x.
Proof. intros H. unfold shr_rel. rewrite Z.pow_0_r. split; [done|]. split; [lia|]. by left. Qed.

Lemma shr_1_rel x : 0 ≤ shr_m x → shr_rel 1 x (shr_1 x).
Proof.
  destruct x as [m r s]. unfold shr_rel, inexact. simpl shr_m at 1.
  intros Hm. change (2 ^ 1) with 2.
  destruct m as [|[p|p|]|p]; simpl; [| | | |lia].
  - split; [lia|]. split; [lia|]. intros H. by left.
  - split; [lia|]. split; [lia|]. intros _. right. lia.
  - split; [lia|]. split; [lia|]. intros H. by left.
  - split; [lia|]. split; [lia|]. intros _. right. lia.
Qed.

Lemma shr_rel_trans a b x y z :
  0 ≤ a → 0 ≤ b → shr_rel a x y → shr_rel b y z → shr_rel (a + b) x z.
Proof.
  intros Ha Hb (Hy & Hxy & Hiy) (Hz & Hyz & Hiz). unfold shr_rel.
  rewrite Z.pow_add_r by done.
  assert (0 < 2 ^ a) as HA by (by apply Z.pow_pos_nonneg).
  assert (0 < 2 ^ b) as HB by (by apply Z.pow_pos_nonneg).
  revert Hy Hz Hxy Hyz Hiy Hiz HA HB.
  generalize (2 ^ a) (2 ^ b) (shr_m x) (shr_m y) (shr_m z)
    (inexact x) (inexact y) (inexact z).
  intros A B mx my mz ix iy iz Hy Hz Hxy Hyz Hiy Hiz HA HB.
  split; [done|]. split; [nia|].
  intros H. destruct (Hiz H) as [H'|H'].
  - destruct (Hiy H') as [?|?]; [by left|right; nia].
  - right. nia.
Qed.

Lemma iter_shr_1_rel p x :
  0 ≤ shr_m x → shr_rel (Z.pos p) x (SpecFloat.iter_pos shr_1 p x).
Proof.
  revert x. induction p as [p IH|p IH|]; intros x Hx; simpl.
  - pose proof (shr_1_rel x Hx) as H1.
    pose proof (IH _ (proj1 H1)) as H2.
    pose proof (IH _ (proj1 H2)) as H3.
    replace (Z.pos p~1) with (1 + Z.pos p + Z.pos p) by lia.
    eapply shr_rel_trans; [lia|lia| |exact H3].
    eapply shr_rel_trans; [lia|lia|exact H1|exact H2].
  - pose proof (IH _ Hx) as H2.
    pose proof (IH _ (proj1 H2)) as H3.
    replace (Z.pos p~0) with (Z.pos p + Z.pos p) by lia.
    eapply shr_rel_trans; [lia|lia|exact H2|exact H3].
  - by apply shr_1_rel.
Qed.

Lemma shr_spec mrs e n mrs' e' :
  0 ≤ shr_m mrs → shr mrs e n = (mrs', e') →
  e' = e + Z.max 0 n ∧ shr_rel (Z.max 0 n) mrs mrs'.
Proof.
  intros Hm. unfold shr. destruct n as [|p|p]; intros [= <- <-].
  - split; [lia|]. by apply shr_rel_refl.
  - split; [lia|]. replace (Z.max 0 (Z.pos p)) with (Z.pos p) by lia.
    by apply iter_shr_1_rel.
  - split; [lia|]. replace (Z.max 0 (Z.neg p)) with 0 by lia.
    by apply shr_rel_refl.
Qed.

Lemma shr_record_of_loc_m m l : shr_m (shr_record_of_loc m l) = m.
Proof. by destruct l as [|[]]. Qed.

Lemma shr_record_of_loc_inexact m l :
  inexact (shr_record_of_loc m l) = true → l ≠ loc_Exact.
Proof. by destruct l as [|[]]. Qed.

(** [shr_fexp] brings the mantissa to the exponent of the format by a
    right shift. *)
Lemma shr_fexp_spec m e l mrs' e' :
  0 ≤ m → shr_fexp prec emax m e l = (mrs', e') →
  let n := Z.max 0 (fexp prec emax (Zdigits2 m + e) - e) in
  e' = e + n
  ∧ 0 ≤ shr_m mrs'
  ∧ shr_m mrs' * 2 ^ n ≤ m < (shr_m mrs' + 1) * 2 ^ n
  ∧ (inexact mrs' = true → l ≠ loc_Exact ∨ shr_m mrs' * 2 ^ n < m).
Proof.
  intros Hm H. unfold shr_fexp in H.
  apply shr_spec in H as [He (H0 & Hb & Hi)];
    rewrite ?shr_record_of_loc_m in *; [|done].
  split; [done|]. split; [done|]. split; [done|].
  intros Hx. destruct (Hi Hx) as [?|?]; [left|by right].
  by eapply shr_record_of_loc_inexact.
Qed.

Lemma round_nearest_even_cases mrs :
  round_nearest_even (shr_m mrs) (loc_of_shr_record mrs) = shr_m mrs
  ∨ (round_nearest_even (shr_m mrs) (loc_of_shr_record mrs) = shr_m mrs + 1
     ∧ inexact mrs = true).
Proof.
  destruct mrs as [m [] []]; unfold inexact; simpl; try (by left); try (by right).
  destruct (Z.even m); [by left|by right].
Qed.

Lemma valid_canonical s m e :
  valid_binary (S754_finite s m e) = true →
  e = Z.max (Z.pos (digits2_pos m) + e - 53) (-1074) ∧ e ≤ 971.
Proof.
  unfold valid_binary, bounded, canonical_mantissa, fexp, emin, prec, emax.
  intros [Hc He]%andb_true_iff. apply Z.eqb_eq in Hc. apply Z.leb_le in He.
  lia.
Qed.

Lemma Zdigits2_pos m : 0 < m → 1 ≤ Zdigits2 m.
Proof. destruct m; simpl; lia. Qed.

Lemma weight_digits_lower m e :
  0 < m → -4400 ≤ e → 2 ^ (Zdigits2 m - 1 + e + 4400) ≤ weight m e.
Proof.
  intros Hm He. pose proof (Zdigits2_pos m Hm).
  rewrite <- weight_pow by lia. apply weight_le. by apply Zdigits2_bounds.
Qed.

Lemma weight_digits_upper m e :
  0 < m → -4400 ≤ e → weight m e < 2 ^ (Zdigits2 m + e + 4400).
Proof.
  intros Hm He. pose proof (Zdigits2_pos m Hm).
  rewrite <- weight_pow by lia. apply weight_lt; [done|]. by apply Zdigits2_bounds.
Qed.

Lemma pow2_le_lt a b c : 2 ^ a ≤ c → c < 2 ^ b → 0 ≤ a → a < b.
Proof.
  intros H1 H2 Ha. destruct (Z.le_gt_cases b a) as [Hba|]; [|done].
  destruct (Z.le_gt_cases 0 b).
  - assert (2 ^ b ≤ 2 ^ a) by (apply Z.pow_le_mono_r; lia). lia.
  - rewrite Z.pow_neg_r in H2 by lia.
    assert (0 < 2 ^ a) by (apply Z.pow_pos_nonneg; lia). lia.
Qed.

(** Rounding keeps an upper bound that is a valid float. The mantissa
    [mx] at exponent [ex] is the truncated exact value, [lx] tells whether
    anything was truncated; the exponent is at most the one of the
    format, as every caller ensures. *)
Lemma binary_round_aux_le sx mx ex lx mb eb :
  0 ≤ mx → -4400 ≤ ex →
  ex ≤ fexp prec emax (Zdigits2 mx + ex) →
  valid_binary (S754_finite false mb eb) = true →
  weight mx ex ≤ weight (Z.pos mb) eb →
  (lx ≠ loc_Exact → weight mx ex < weight (Z.pos mb) eb) →
  rounded sx mb eb (binary_round_aux prec emax sx mx ex lx).
Proof.
  intros Hmx Hex Hfine Hv Hle Hlt.
  destruct (valid_canonical _ _ _ Hv) as [Hcan Heb]. clear Hv.
  assert (weight (Z.pos mb) eb < 2 ^ (Zdigits2 (Z.pos mb) + eb + 4400)) as HBup
    by (apply weight_digits_upper; lia).
  change (Zdigits2 (Z.pos mb)) with (Z.pos (digits2_pos mb)) in HBup.
  assert (0 < Z.pos (digits2_pos mb)) as Hdb by lia.
  revert Hcan HBup Hdb. generalize (Z.pos (digits2_pos mb)).
  intros db Hcan HBup Hdb.
  unfold binary_round_aux.
  destruct (shr_fexp prec emax mx ex lx) as [mrs1 e1] eqn:E1.
  destruct (shr_fexp prec emax _ e1 loc_Exact) as [mrs2 e2] eqn:E2.
  apply shr_fexp_spec in E1; [|done]. cbv zeta in E1.
  destruct E1 as (He1 & Hm1 & Hb1 & Hi1).
  unfold fexp, emin, prec, emax in Hfine, He1, Hb1, Hi1.
  assert (e1 = Z.max (Zdigits2 mx + ex - 53) (-1074)) as He1' by lia.
  replace (Z.max 0 (Z.max (Zdigits2 mx + ex - 53) (3 - 1024 - 53) - ex))
    with (e1 - ex) in Hb1, Hi1 by lia.
  assert (ex ≤ e1) as Hex1 by lia. clear He1 Hfine.
  (* the exponent is the least one when the mantissa is zero *)
  assert (mx = 0 → e1 = -1074) as Hzero.
  { intros ->. simpl in He1'. lia. }
  assert (0 < mx → 2 ^ (Zdigits2 mx - 1 + ex + 4400) ≤ weight mx ex) as Hlow
    by (intros; apply weight_digits_lower; lia).
  assert (weight (shr_m mrs1) e1 ≤ weight mx ex) as Hw1.
  { replace e1 with (ex + (e1 - ex)) by lia. rewrite weight_shift by lia.
    apply weight_le. lia. }
  assert (inexact mrs1 = true →
          weight (shr_m mrs1) e1 < weight (Z.pos mb) eb) as Hw1'.
  { intros Hi. destruct (Hi1 Hi) as [Hl|Hl]; [specialize (Hlt Hl); lia|].
    eapply Z.lt_le_trans; [|exact Hle].
    replace e1 with (ex + (e1 - ex)) by lia. rewrite weight_shift by lia.
    by apply weight_lt. }
  (* a large exponent means a large value *)
  assert (972 ≤ e1 → False) as Hbig1.
  { intros Hbig. destruct (Z.eq_dec mx 0) as [?|?]; [lia|].
    specialize (Hlow ltac:(lia)).
    assert (2 ^ (Zdigits2 mx - 1 + ex + 4400) < 2 ^ (db + eb + 4400)) as Hp by lia.
    apply Z.pow_lt_mono_r_iff in Hp; lia. }
  set (m2 := round_nearest_even (shr_m mrs1) (loc_of_shr_record mrs1)) in *.
  assert (0 ≤ m2 ∧ weight m2 e1 ≤ weight (Z.pos mb) eb) as [Hm2 Hw2].
  { destruct (round_nearest_even_cases mrs1) as [Hr|[Hr Hi]]; fold m2 in Hr;
      rewrite Hr; [split; lia|]. split; [lia|].
    specialize (Hw1' Hi).
    destruct (Z.le_gt_cases e1 eb) as [Hc|Hc].
    - replace eb with (e1 + (eb - e1)) in Hw1' |- * by lia.
      rewrite weight_shift in Hw1' |- * by lia.
      apply weight_lt_inv in Hw1'. apply weight_le. lia.
    - exfalso. destruct (Z.eq_dec mx 0) as [?|?]; [lia|].
      specialize (Hlow ltac:(lia)).
      assert (2 ^ (Zdigits2 mx - 1 + ex + 4400) < 2 ^ (db + eb + 4400)) as Hp by lia.
      apply Z.pow_lt_mono_r_iff in Hp; lia. }
  apply shr_fexp_spec in E2; [|done]. cbv zeta in E2.
  destruct E2 as (He2 & Hm3 & Hb3 & _).
  unfold fexp, emin, prec, emax in He2, Hb3.
  set (n2 := Z.max 0 (Z.max (Zdigits2 m2 + e1 - 53) (3 - 1024 - 53) - e1)) in *.
  assert (weight (shr_m mrs2) e2 ≤ weight (Z.pos mb) eb) as Hw3.
  { eapply Z.le_trans; [|exact Hw2]. rewrite He2, weight_shift by lia.
    apply weight_le. lia. }
  destruct (shr_m mrs2) as [|m3|m3] eqn:Em3; [done| |lia].
  assert (e2 ≤ 971) as He2'.
  { destruct (Z.le_gt_cases e2 971) as [|Hbig]; [done|]. exfalso.
    assert (0 < m2) as Hm2'.
    { assert (0 < 2 ^ n2) by (apply Z.pow_pos_nonneg; lia). nia. }
    pose proof (weight_digits_lower m2 e1 Hm2' ltac:(lia)) as Hl2.
    destruct (Z.le_gt_cases 972 e1) as [|]; [by apply Hbig1|].
    assert (2 ^ (Zdigits2 m2 - 1 + e1 + 4400) < 2 ^ (db + eb + 4400)) as Hp by lia.
    pose proof (Zdigits2_pos m2 Hm2').
    apply Z.pow_lt_mono_r_iff in Hp; lia. }
  unfold emax, prec. rewrite (proj2 (Z.leb_le e2 (1024 - 53))) by lia.
  done.
Qed.

Lemma weight_exp_add m e n :
  0 ≤ n → -4400 ≤ e → weight m (e + n) = weight m e * 2 ^ n.
Proof.
  intros Hn He. unfold weight.
  replace (e + n + 4400) with (e + 4400 + n) by lia.
  rewrite Z.pow_add_r by lia. lia.
Qed.

Lemma weight_nonneg_inv m e : -4400 ≤ e → 0 ≤ weight m e → 0 ≤ m.
Proof.
  intros He H. destruct (Z.le_gt_cases 0 m) as [|Hm]; [done|].
  apply (weight_lt _ _ e He) in Hm. unfold weight in Hm at 2. lia.
Qed.

Lemma iter_xO m d : Z.pos (Pos.iter xO m d) = Z.pos m * 2 ^ Z.pos d.
Proof.
  induction d as [|d IH] using Pos.peano_ind.
  - simpl. lia.
  - rewrite Pos.iter_succ, Pos2Z.inj_succ, Z.pow_succ_r by lia.
    rewrite Pos2Z.inj_xO, IH. lia.
Qed.

Lemma digits_iter_xO m d :
  Z.pos (digits2_pos (Pos.iter xO m d)) = Z.pos (digits2_pos m) + Z.pos d.
Proof.
  induction d as [|d IH] using Pos.peano_ind.
  - simpl. lia.
  - rewrite Pos.iter_succ. simpl. lia.
Qed.

Lemma shl_align_spec m e e' m' e'' :
  shl_align m e e' = (m', e'') →
  e'' = Z.min e e'
  ∧ Z.pos m' = Z.pos m * 2 ^ (e - e'')
  ∧ Z.pos (digits2_pos m') = Z.pos (digits2_pos m) + (e - e'').
Proof.
  unfold shl_align. destruct (e' - e) as [|d|d] eqn:Hd; intros [= <- <-].
  - split; [lia|]. rewrite Z.sub_diag, Z.pow_0_r. lia.
  - split; [lia|]. rewrite Z.sub_diag, Z.pow_0_r. lia.
  - split; [lia|]. replace (e - e') with (Z.pos d) by lia.
    by rewrite iter_xO, digits_iter_xO.
Qed.

Lemma binary_round_le sx mx ex mb eb :
  -4400 ≤ ex →
  valid_binary (S754_finite false mb eb) = true →
  weight (Z.pos mx) ex ≤ weight (Z.pos mb) eb →
  rounded sx mb eb (binary_round prec emax sx mx ex).
Proof.
  intros Hex Hv Hle. unfold binary_round.
  destruct (shl_align mx ex _) as [mz ez] eqn:E.
  apply shl_align_spec in E as (Hez & Hmz & Hdz).
  assert (-4400 ≤ ez) as Hez' by (unfold fexp, emin, prec, emax in Hez; lia).
  apply binary_round_aux_le; [lia|done| |done| |done].
  - simpl. rewrite Hdz.
    replace (Z.pos (digits2_pos mx) + (ex - ez) + ez)
      with (Z.pos (digits2_pos mx) + ex) by lia. lia.
  - rewrite Hmz, <- weight_shift by lia.
    by replace (ez + (ex - ez)) with ex by lia.
Qed.

Lemma binary_normalize_le m e mb eb :
  0 ≤ m → -4400 ≤ e →
  valid_binary (S754_finite false mb eb) = true →
  weight m e ≤ weight (Z.pos mb) eb →
  rounded false mb eb (binary_normalize prec emax m e false).
Proof.
  intros Hm He Hv Hle. destruct m as [|m|m]; [done| |lia].
  by apply binary_round_le.
Qed.

Lemma shl_align_weight m e e' :
  -4400 ≤ e' → e' ≤ e →
  weight (Z.pos (fst (shl_align m e e'))) e' = weight (Z.pos m) e.
Proof.
  intros He' Hle. destruct (shl_align m e e') as [mz ez] eqn:E.
  apply shl_align_spec in E as (Hez & Hmz & _). simpl.
  assert (ez = e') as -> by lia.
  rewrite Hmz, <- weight_shift by lia. f_equal. lia.
Qed.

Lemma cond_Zopp_weight s m e :
  weight (cond_Zopp s m) e = cond_Zopp s (weight m e).
Proof. destruct s; simpl; [apply weight_opp|done]. Qed.

(** The exact sum that [SFadd] rounds. *)
Lemma SFadd_finite s1 m1 e1 s2 m2 e2 :
  -4400 ≤ e1 → -4400 ≤ e2 →
  ∃ m, SFadd prec emax (S754_finite s1 m1 e1) (S754_finite s2 m2 e2)
       = binary_normalize prec emax m (Z.min e1 e2) false
       ∧ weight m (Z.min e1 e2)
         = cond_Zopp s1 (weight (Z.pos m1) e1)
           + cond_Zopp s2 (weight (Z.pos m2) e2).
Proof.
  intros H1 H2. eexists. split; [reflexivity|].
  rewrite weight_add, !cond_Zopp_weight, !shl_align_weight by lia. done.
Qed.

(** The exact difference that [SFsub] rounds. *)
Lemma SFsub_finite s1 m1 e1 s2 m2 e2 :
  -4400 ≤ e1 → -4400 ≤ e2 →
  ∃ m, SFsub prec emax (S754_finite s1 m1 e1) (S754_finite s2 m2 e2)
       = binary_normalize prec emax m (Z.min e1 e2) false
       ∧ weight m (Z.min e1 e2)
         = cond_Zopp s1 (weight (Z.pos m1) e1)
           - cond_Zopp s2 (weight (Z.pos m2) e2).
Proof.
  intros H1 H2. eexists. split; [reflexivity|].
  unfold Z.sub at 1.
  rewrite weight_add, weight_opp, !cond_Zopp_weight, !shl_align_weight by lia.
  lia.
Qed.

Lemma Zdigits2_ge m k : 2 ^ k ≤ m → 0 ≤ k → k < Zdigits2 m.
Proof.
  intros Hm Hk.
  assert (0 < 2 ^ k) by (by apply Z.pow_pos_nonneg).
  destruct (Zdigits2_bounds m ltac:(lia)) as [_ Hu].
  eapply pow2_le_lt; done.
Qed.

(** The product with a normal float. *)
Lemma SFmul_le s1 m1 e1 s2 m2 e2 mb eb :
  2 ^ 52 ≤ Z.pos m1 → -2200 ≤ e1 → -2200 ≤ e2 →
  valid_binary (S754_finite false mb eb) = true →
  weight (Z.pos m1 * Z.pos m2) (e1 + e2) ≤ weight (Z.pos mb) eb →
  rounded (xorb s1 s2) mb eb
    (SFmul prec emax (S754_finite s1 m1 e1) (S754_finite s2 m2 e2)).
Proof.
  intros Hn H1 H2 Hv Hle. unfold SFmul.
  apply binary_round_aux_le; [lia|lia| |done|by rewrite Pos2Z.inj_mul|done].
  assert (52 < Zdigits2 (Z.pos (m1 * m2))) as Hd.
  { apply Zdigits2_ge; [|lia]. rewrite Pos2Z.inj_mul. nia. }
  unfold fexp, emin, prec, emax. lia.
Qed.

Lemma new_location_exact n r : r = 0 → new_location n r = loc_Exact.
Proof.
  intros ->. unfold new_location, new_location_even, new_location_odd.
  by destruct (Z.even n).
Qed.

(** The quotient [x / d] is at most [b] when [x <= b * d]. *)
Lemma SFdiv_le s1 m1 e1 s2 m2 e2 mb eb :
  -1074 ≤ e1 ≤ 971 → -1074 ≤ e2 ≤ 971 →
  valid_binary (S754_finite false mb eb) = true →
  weight (Z.pos m1) e1 * weight 1 0
    ≤ weight (Z.pos mb) eb * weight (Z.pos m2) e2 →
  rounded (xorb s1 s2) mb eb
    (SFdiv prec emax (S754_finite s1 m1 e1) (S754_finite s2 m2 e2)).
Proof.
  intros H1 H2 Hv Hle. unfold SFdiv, SFdiv_core_binary.
  assert (weight 1 0 = 2 ^ 4400) as Hunit by (unfold weight; lia).
  rewrite Hunit in Hle. clear Hunit.
  set (d1 := Zdigits2 (Z.pos m1)). set (d2 := Zdigits2 (Z.pos m2)).
  set (e' := Z.min (fexp prec emax (d1 + e1 - (d2 + e2))) (e1 - e2)).
  set (s := e1 - e2 - e').
  assert (0 ≤ s) as Hs by lia.
  assert (-2200 ≤ e') as He'.
  { unfold e', fexp, emin, prec, emax. lia. }
  set (m' := match s with Z.pos _ => Z.shiftl (Z.pos m1) s | 0 => Z.pos m1
             | Z.neg _ => 0 end).
  assert (m' = Z.pos m1 * 2 ^ s) as Hm'.
  { unfold m'. destruct s as [|p|p] eqn:Es; [rewrite Z.pow_0_r; lia| |lia].
    by rewrite Z.shiftl_mul_pow2. }
  clearbody m'.
  pose proof (Z_div_mod m' (Z.pos m2) ltac:(lia)) as Hdiv.
  destruct (Z.div_eucl m' (Z.pos m2)) as [q r]. destruct Hdiv as [Hq Hr].
  assert (0 < 2 ^ s) as Hps by (by apply Z.pow_pos_nonneg).
  assert (0 ≤ q) as Hq0 by nia.
  pose proof (Zdigits2_bounds (Z.pos m1) ltac:(lia)) as [Hl1 Hu1].
  pose proof (Zdigits2_bounds (Z.pos m2) ltac:(lia)) as [Hl2 Hu2].
  fold d1 in Hl1, Hu1. fold d2 in Hl2, Hu2.
  assert (1 ≤ d1) as Hd1 by (apply Zdigits2_pos; lia).
  assert (1 ≤ d2) as Hd2 by (apply Zdigits2_pos; lia).
  (* the value of the quotient *)
  assert (weight q e' * weight (Z.pos m2) e2 ≤ weight (Z.pos m1) e1 * 2 ^ 4400
          ∧ (r ≠ 0 → weight q e' * weight (Z.pos m2) e2
                      < weight (Z.pos m1) e1 * 2 ^ 4400)) as [Hw Hw'].
  { assert (2 ^ (e1 + 4400) * 2 ^ 4400
            = 2 ^ s * (2 ^ (e' + 4400) * 2 ^ (e2 + 4400))) as Hpow.
    { rewrite <- !Z.pow_add_r by lia. f_equal. lia. }
    assert (0 < 2 ^ (e' + 4400) * 2 ^ (e2 + 4400)) as Hab.
    { apply Z.mul_pos_pos; apply Z.pow_pos_nonneg; lia. }
    unfold weight. rewrite <- (Z.mul_assoc (Z.pos m1)), Hpow.
    revert Hab. generalize (2 ^ (e' + 4400)) (2 ^ (e2 + 4400)).
    intros A B Hab.
    replace (q * A * (Z.pos m2 * B)) with (q * Z.pos m2 * (A * B)) by lia.
    replace (Z.pos m1 * (2 ^ s * (A * B))) with (m' * (A * B)) by lia.
    split.
    - apply Z.mul_le_mono_nonneg_r; lia.
    - intros Hr0. apply Z.mul_lt_mono_pos_r; lia. }
  assert (0 < weight (Z.pos m2) e2) as Hwd.
  { unfold weight. apply Z.mul_pos_pos; [lia|apply Z.pow_pos_nonneg; lia]. }
  apply binary_round_aux_le; [done|lia| |done| |].
  - (* the quotient has enough digits *)
    assert (d1 - d2 + s ≤ Zdigits2 q) as Hdq.
    { destruct (Z.le_gt_cases (d1 - d2 + s) 0) as [|Hk].
      - pose proof (Zdigits2_nonneg q). lia.
      - assert (2 ^ (d1 - d2 + s - 1) ≤ q) as Hql.
        { assert (2 ^ (d1 - d2 + s - 1) * 2 ^ d2 = 2 ^ (d1 - 1) * 2 ^ s) as Hp.
          { rewrite <- !Z.pow_add_r by lia. f_equal. lia. }
          assert (0 < 2 ^ (d1 - d2 + s - 1)) as Hpk
            by (apply Z.pow_pos_nonneg; lia).
          revert Hp Hpk. generalize (2 ^ (d1 - d2 + s - 1)). intros P Hp Hpk.
          assert (P * Z.pos m2 < P * 2 ^ d2) as Ha
            by (apply Z.mul_lt_mono_pos_l; lia).
          assert (2 ^ (d1 - 1) * 2 ^ s ≤ Z.pos m1 * 2 ^ s) as Hb
            by (apply Z.mul_le_mono_nonneg_r; lia).
          assert (Z.pos m2 * P < Z.pos m2 * (q + 1)) as Hc by lia.
          apply Z.mul_lt_mono_pos_l in Hc; lia. }
        pose proof (Zdigits2_ge q _ Hql ltac:(lia)). lia. }
    unfold s in Hdq. unfold e', fexp, emin, prec, emax in Hdq |- *. lia.
  - apply Z.mul_le_mono_pos_r with (weight (Z.pos m2) e2); [done|lia].
  - intros Hloc. apply Z.mul_lt_mono_pos_r with (weight (Z.pos m2) e2); [done|].
    eapply Z.lt_le_trans; [apply Hw'|exact Hle].
    intros ->. by rewrite new_location_exact in Hloc.
Qed.

Lemma SFleb_pos_pos m1 e1 m2 e2 :
  SFleb (S754_finite false m1 e1) (S754_finite false m2 e2) = true →
  e1 < e2 ∨ (e1 = e2 ∧ Z.pos m1 ≤ Z.pos m2).
Proof.
  unfold SFleb, SFcompare.
  destruct (Z.compare_spec e1 e2) as [He|He|He]; [|by left|done].
  change (Pos.compare_cont Eq m1 m2) with (Pos.compare m1 m2).
  destruct (Pos.compare_spec m1 m2) as [Hc|Hc|Hc]; [| |done];
    intros _; right; (split; [done|lia]).
Qed.

Lemma SFleb_neg_neg m1 e1 m2 e2 :
  SFleb (S754_finite true m1 e1) (S754_finite true m2 e2) = true →
  e2 < e1 ∨ (e1 = e2 ∧ Z.pos m2 ≤ Z.pos m1).
Proof.
  unfold SFleb, SFcompare.
  destruct (Z.compare_spec e1 e2) as [He|He|He]; [|done|by left].
  change (Pos.compare_cont Eq m1 m2) with (Pos.compare m1 m2).
  destruct (Pos.compare_spec m1 m2) as [Hc|Hc|Hc]; [|done|];
    intros _; right; (split; [done|lia]).
Qed.

Lemma weight_exp_le m e e' :
  0 ≤ m → -4400 ≤ e → e ≤ e' → weight m e ≤ weight m e'.
Proof.
  intros Hm He Hle. unfold weight. apply Z.mul_le_mono_nonneg_l; [done|].
  apply Z.pow_le_mono_r; lia.
Qed.

(** A valid float of smaller exponent, or of the same exponent and smaller
    mantissa, than a normal one has a smaller value. *)
Lemma weight_of_order s m e mb eb :
  valid_binary (S754_finite s m e) = true →
  2 ^ 52 ≤ Z.pos mb →
  e < eb ∨ (e = eb ∧ Z.pos m ≤ Z.pos mb) →
  weight (Z.pos m) e ≤ weight (Z.pos mb) eb.
Proof.
  intros Hv Hn [He|[-> Hm]]; [|by apply weight_le].
  pose proof (valid_mantissa_bound _ _ _ Hv) as Hm.
  pose proof (valid_exponent_lower _ _ _ Hv) as Hlo.
  apply Z.le_trans with (weight (2 ^ 52) (e + 1)).
  - rewrite weight_shift by lia.
    apply weight_le. change (2 ^ 52 * 2 ^ 1) with (2 ^ 53). lia.
  - apply Z.le_trans with (weight (2 ^ 52) eb).
    + apply weight_exp_le; lia.
    + by apply weight_le.
Qed.

Lemma valid_normal s m e :
  2 ^ 52 ≤ Z.pos m < 2 ^ 53 → -1074 ≤ e ≤ 971 →
  valid_binary (S754_finite s m e) = true.
Proof.
  intros [Hl Hu] He.
  pose proof (digits2_pos_bound m) as Hdu.
  pose proof (digits2_pos_lower m) as Hdl.
  assert (52 < Z.pos (digits2_pos m)) as H1
    by (eapply pow2_le_lt; [exact Hl|exact Hdu|lia]).
  assert (Z.pos (digits2_pos m) - 1 < 53) as H2
    by (eapply pow2_le_lt; [exact Hdl|exact Hu|lia]).
  unfold valid_binary, bounded, canonical_mantissa, fexp, emin, prec, emax.
  apply andb_true_iff. split; [apply Z.eqb_eq|apply Z.leb_le]; lia.
Qed.

(** A non-negative float bounded by the double under [2^zoom] lies
    strictly between [-1] and [2 ** zoom]. *)
Lemma rounded_lt_two_pow (f : float) zoom :
  0 ≤ zoom ≤ 1023 →
  rounded false 9007199254740991 (zoom - 53) (Prim2SF f) →
  (-1 <? f)%float = true ∧ (f <? two_pow zoom)%float = true.
Proof.
  intros Hz Hr. rewrite !ltb_spec.
  destruct (two_pow_spec zoom Hz) as [_ ->].
  assert (Prim2SF (-1) = S754_finite true 4503599627370496 (-52)) as ->
    by (vm_compute; reflexivity).
  pose proof (Prim2SF_valid f) as Hv.
  destruct (Prim2SF f) as [s|s| |s m e]; try done.
  destruct Hr as [-> Hw]. split; [done|].
  apply SFltb_pos_pos_intro. left.
  destruct (Z.le_gt_cases (zoom - 52) e) as [He|He]; [exfalso|done].
  pose proof (valid_mantissa_normal _ _ _ Hv ltac:(lia)) as Hn.
  assert (weight (2 ^ 52) (zoom - 52) ≤ weight (Z.pos m) e) as Hlow.
  { apply Z.le_trans with (weight (2 ^ 52) e);
      [apply weight_exp_le; lia|by apply weight_le]. }
  replace (zoom - 52) with (zoom - 53 + 1) in Hlow by lia.
  rewrite weight_shift in Hlow by lia.
  assert (weight 9007199254740991 (zoom - 53)
          < weight (2 ^ 52 * 2 ^ 1) (zoom - 53)) as Hup
    by (apply weight_lt; [lia|done]).
  lia.
Qed.
End rounding.

(** ** tile_catalog_server: the range of the tile index *)

Section tile_index_range.
Context (libm : Libm).
Local Open Scope float_scope.

Lemma valid_range s m e :
  valid_binary (S754_finite s m e) = true → (-1074 ≤ e ≤ 971)%Z.
Proof.
  intros Hv. pose proof (valid_exponent_lower _ _ _ Hv).
  destruct (valid_canonical _ _ _ Hv). lia.
Qed.

Lemma weight_pos_pos m e : (-4400 ≤ e → 0 < weight (Z.pos m) e)%Z.
Proof.
  intros He. unfold weight.
  apply Z.mul_pos_pos; [lia|apply Z.pow_pos_nonneg; lia].
Qed.

Lemma weight_180_le :
  (weight 6333186975989760 (-45) ≤ weight 6333186975989759 (-44))%Z.
Proof. apply (weight_of_order false); [reflexivity|vm_compute; discriminate|left; lia]. Qed.

Lemma weight_180_sum :
  (weight 6333186975989758 (-45) + weight 6333186975989760 (-45)
   = weight 6333186975989759 (-44))%Z.
Proof.
  rewrite <- weight_add. change (-44)%Z with (-45 + 1)%Z.
  rewrite weight_shift; [reflexivity|lia|lia].
Qed.

(** [lon + 180.0] for a longitude from -180 up to the second double below
    180 is at most the double below 360. *)
Lemma lon_plus_180 lon :
  (-180 <=? lon) = true → (lon <? lon_limit) = true →
  rounded false 6333186975989759 (-44) (Prim2SF (lon + 180)).
Proof.
  intros Hlo Hhi. rewrite leb_spec in Hlo. rewrite ltb_spec in Hhi.
  rewrite add_spec.
  assert (Prim2SF (-180) = S754_finite true 6333186975989760 (-45)) as E1
    by (vm_compute; reflexivity).
  assert (Prim2SF lon_limit = S754_finite false 6333186975989759 (-45)) as E2
    by (vm_compute; reflexivity).
  assert (Prim2SF 180 = S754_finite false 6333186975989760 (-45)) as E3
    by (vm_compute; reflexivity).
  rewrite E1 in Hlo. rewrite E2 in Hhi. rewrite E3. clear E1 E2 E3.
  pose proof (Prim2SF_valid lon) as Hv.
  destruct (Prim2SF lon) as [s|s| |s m e].
  - split; [reflexivity|exact weight_180_le].
  - destruct s; [cbn in Hlo; discriminate Hlo|cbn in Hhi; discriminate Hhi].
  - cbn in Hlo. discriminate Hlo.
  - pose proof (valid_range _ _ _ Hv) as He.
    unfold SF64add.
    destruct (SFadd_finite s m e false 6333186975989760 (-45))
      as (S & -> & HS); [clear -He; lia|clear; lia|].
    cut (0 ≤ weight S (Z.min e (-45)) ≤ weight 6333186975989759 (-44))%Z.
    { intros [H0 H1].
      apply binary_normalize_le; [|clear -He; lia|reflexivity|exact H1].
      eapply weight_nonneg_inv; [|exact H0]. clear -He; lia. }
    rewrite HS. clear HS.
    pose proof (weight_pos_pos m e ltac:(clear -He; lia)) as Hpos.
    pose proof weight_180_le as H180. pose proof weight_180_sum as Hsum.
    destruct s; unfold cond_Zopp.
    + clear Hhi. apply SFleb_neg_neg in Hlo.
      assert (weight (Z.pos m) e ≤ weight 6333186975989760 (-45))%Z as Hm.
      { apply (weight_of_order true); [exact Hv|vm_compute; discriminate|].
        clear -Hlo. destruct Hlo as [?|[? ?]]; [by left|right; by split]. }
      revert Hm Hpos H180. clear.
      generalize (weight (Z.pos m) e) (weight 6333186975989760 (-45))
        (weight 6333186975989759 (-44)). intros; lia.
    + clear Hlo. apply SFltb_pos_pos in Hhi.
      assert (weight (Z.pos m) e ≤ weight 6333186975989758 (-45))%Z as Hm.
      { apply (weight_of_order false); [exact Hv|vm_compute; discriminate|].
        clear -Hhi. destruct Hhi as [?|[? ?]]; [by left|right; split; [done|lia]]. }
      pose proof (weight_pos_pos 6333186975989760 (-45) ltac:(clear; lia))
        as Hp180.
      revert Hm Hpos Hsum Hp180. clear.
      generalize (weight (Z.pos m) e) (weight 6333186975989760 (-45))
        (weight 6333186975989759 (-44)) (weight 6333186975989758 (-45)).
      intros; lia.
Qed.

Lemma weight_unit_nonneg : (0 ≤ weight 1 0)%Z.
Proof. unfold weight. apply Z.mul_nonneg_nonneg; [lia|apply Z.pow_nonneg; lia]. Qed.

(** Dividing by a positive normal constant [d]: a bound [xb] on the
    numerator with [xb <= b * d] gives the bound [b] on the quotient. *)
Lemma div_constant (f d : float) md ed mx ex mb eb s :
  Prim2SF d = S754_finite false md ed →
  valid_binary (S754_finite false mb eb) = true →
  (weight (Z.pos mx) ex * weight 1 0
   ≤ weight (Z.pos mb) eb * weight (Z.pos md) ed)%Z →
  rounded s mx ex (Prim2SF f) →
  rounded s mb eb (Prim2SF (f / d)).
Proof.
  intros Hd Hvb Hle Hf. rewrite div_spec, Hd.
  pose proof (Prim2SF_valid f) as Hv. pose proof (Prim2SF_valid d) as Hvd.
  rewrite Hd in Hvd. apply valid_range in Hvd.
  destruct (Prim2SF f) as [s'|s'| |s' m e]; try (exfalso; exact Hf).
  - simpl in Hf. subst s'. simpl. by destruct s.
  - destruct Hf as [-> Hw]. apply valid_range in Hv.
    replace s with (xorb s false) at 1 by (by destruct s).
    apply SFdiv_le; [exact Hv|exact Hvd|exact Hvb|].
    eapply Z.le_trans; [|exact Hle].
    apply Z.mul_le_mono_nonneg_r; [exact weight_unit_nonneg|exact Hw].
Qed.

(** Multiplying by [2 ** zoom] shifts a bound on a float. *)
Lemma mul_two_pow (f : float) zoom mb eb s :
  (0 ≤ zoom ≤ 1023)%Z →
  (2 ^ 52 ≤ Z.pos mb < 2 ^ 53)%Z → (-1074 ≤ eb)%Z → (eb + zoom ≤ 971)%Z →
  rounded s mb eb (Prim2SF f) →
  rounded s mb (eb + zoom) (Prim2SF (two_pow zoom * f)).
Proof.
  intros Hz Hmb Heb Hez Hf. rewrite mul_spec.
  destruct (two_pow_spec zoom Hz) as [_ ->].
  pose proof (Prim2SF_valid f) as Hv.
  destruct (Prim2SF f) as [s'|s'| |s' m e]; try (exfalso; exact Hf).
  - simpl in Hf. subst s'. reflexivity.
  - destruct Hf as [-> Hw]. apply valid_range in Hv.
    change s with (xorb false s) at 1.
    apply SFmul_le; [reflexivity|clear -Hz; lia|clear -Hv; lia| |].
    + apply valid_normal; [exact Hmb|clear -Heb Hez Hz; lia].
    + rewrite Z.mul_comm.
      change (Z.pos 4503599627370496) with (2 ^ 52)%Z.
      rewrite <- weight_shift by (clear -Hz Hv; lia).
      replace (zoom - 52 + e + 52)%Z with (e + zoom)%Z by (clear; lia).
      rewrite !weight_exp_add by (clear -Hz Hv Heb; lia).
      apply Z.mul_le_mono_nonneg_r; [apply Z.pow_nonneg; clear; lia|exact Hw].
Qed.

Lemma weight_360_le :
  (weight 6333186975989759 (-44) * weight 1 0
   ≤ weight 9007199254740991 (-53) * weight 6333186975989760 (-44))%Z.
Proof. apply Z.leb_le. vm_compute. reflexivity. Qed.

(** [x_tile] for a longitude from -180 up to the second double below 180. *)
Lemma x_tile_in_range lon zoom :
  (0 ≤ zoom ≤ 1023)%Z →
  (-180 <=? lon) = true → (lon <? lon_limit) = true →
  (-1 <? two_pow zoom * ((lon + 180) / 360)) = true
  ∧ (two_pow zoom * ((lon + 180) / 360) <? two_pow zoom) = true.
Proof.
  intros Hz Hlo Hhi. apply rounded_lt_two_pow; [exact Hz|].
  replace (zoom - 53)%Z with (-53 + zoom)%Z by (clear; lia).
  apply mul_two_pow; [exact Hz|clear; lia|clear; lia|clear -Hz; lia|].
  eapply (div_constant _ 360); [vm_compute; reflexivity|reflexivity| |].
  - exact weight_360_le.
  - by apply lon_plus_180.
Qed.

Lemma weight_pi_le :
  (weight 7074237752028438 (-51) * weight 1 0
   ≤ weight 9007199254740990 (-53) * weight 7074237752028440 (-51))%Z.
Proof. apply Z.leb_le. vm_compute. reflexivity. Qed.

Lemma weight_pi_unit :
  (weight 7074237752028440 (-51) * weight 1 0
   ≤ weight 4503599627370496 (-52) * weight 7074237752028440 (-51))%Z.
Proof. apply Z.leb_le. vm_compute. reflexivity. Qed.

(** A float from [- mercator_limit] to [math.pi], divided by [math.pi],
    is at most [1.0] when it is positive, and at most [1 - 2^-52] in
    magnitude when it is negative. *)
Lemma mercator_quotient l :
  (- mercator_limit <=? l) = true → (l <=? Flt.math_pi) = true →
  rounded false 4503599627370496 (-52) (Prim2SF (l / Flt.math_pi))
  ∨ rounded true 9007199254740990 (-53) (Prim2SF (l / Flt.math_pi)).
Proof.
  intros Hlo Hhi. rewrite leb_spec in Hlo, Hhi.
  assert (Prim2SF (- mercator_limit)
          = S754_finite true 7074237752028438 (-51)) as E1
    by (vm_compute; reflexivity).
  assert (Prim2SF Flt.math_pi
          = S754_finite false 7074237752028440 (-51)) as E2
    by (vm_compute; reflexivity).
  rewrite E1 in Hlo. rewrite E2 in Hhi. clear E1.
  cut (rounded false 7074237752028440 (-51) (Prim2SF l)
       ∨ rounded true 7074237752028438 (-51) (Prim2SF l)).
  { intros [Hs|Hs]; [left|right].
    - eapply (div_constant _ Flt.math_pi);
        [exact E2|reflexivity|exact weight_pi_unit|exact Hs].
    - eapply (div_constant _ Flt.math_pi);
        [exact E2|reflexivity|exact weight_pi_le|exact Hs]. }
  clear E2. pose proof (Prim2SF_valid l) as Hv.
  destruct (Prim2SF l) as [s|s| |s m e].
  - destruct s; [by right|by left].
  - destruct s; [cbn in Hlo; discriminate Hlo|cbn in Hhi; discriminate Hhi].
  - cbn in Hlo. discriminate Hlo.
  - destruct s; [right|left]; (split; [reflexivity|]).
    + clear Hhi. apply SFleb_neg_neg in Hlo.
      apply (weight_of_order true); [exact Hv|vm_compute; discriminate|].
      clear -Hlo. destruct Hlo as [?|[? ?]]; [by left|right; by split].
    + clear Hlo. apply SFleb_pos_pos in Hhi.
      apply (weight_of_order false); [exact Hv|vm_compute; discriminate|].
      exact Hhi.
Qed.

Lemma weight_one_le :
  (weight 4503599627370496 (-52) ≤ weight 9007199254740991 (-52))%Z.
Proof. apply weight_le. clear. lia. Qed.

Lemma weight_one_sum :
  (weight 4503599627370496 (-52) + weight 9007199254740990 (-53)
   = weight 9007199254740991 (-52))%Z.
Proof.
  change (-52)%Z with (-53 + 1)%Z. rewrite !weight_shift by (clear; lia).
  rewrite <- weight_add. reflexivity.
Qed.

(** [1.0 - q] is not negative and at most the double below 2, for [q]
    from [-(1 - 2^-52)] to [1.0]. *)
Lemma one_minus (q : float) :
  rounded false 4503599627370496 (-52) (Prim2SF q)
  ∨ rounded true 9007199254740990 (-53) (Prim2SF q) →
  rounded false 9007199254740991 (-52) (Prim2SF (1 - q)).
Proof.
  intros Hq. rewrite sub_spec.
  assert (Prim2SF 1 = S754_finite false 4503599627370496 (-52)) as ->
    by (vm_compute; reflexivity).
  pose proof (Prim2SF_valid q) as Hv.
  destruct (Prim2SF q) as [s'|s'| |s' m e];
    try (exfalso; destruct Hq as [Hq|Hq]; exact Hq).
  - split; [reflexivity|exact weight_one_le].
  - pose proof (valid_range _ _ _ Hv) as He.
    unfold SF64sub.
    destruct (SFsub_finite false 4503599627370496 (-52) s' m e)
      as (S & -> & HS); [clear; lia|clear -He; lia|].
    cut (0 ≤ weight S (Z.min (-52) e) ≤ weight 9007199254740991 (-52))%Z.
    { intros [H0 H1].
      apply binary_normalize_le; [|clear -He; lia|reflexivity|exact H1].
      eapply weight_nonneg_inv; [|exact H0]. clear -He; lia. }
    rewrite HS. clear HS.
    pose proof (weight_pos_pos m e ltac:(clear -He; lia)) as Hpos.
    pose proof weight_one_sum as Hsum. pose proof weight_one_le as Hone.
    pose proof (weight_pos_pos 4503599627370496 (-52) ltac:(clear; lia))
      as Hp1.
    revert Hq Hpos Hsum Hone Hp1. clear. unfold rounded.
    generalize (weight (Z.pos m) e) (weight 4503599627370496 (-52))
      (weight 9007199254740990 (-53)) (weight 9007199254740991 (-52)).
    intros w w1 wq wb [[-> Hw]|[-> Hw]]; unfold cond_Zopp; intros; lia.
Qed.

Lemma weight_half zoom :
  (0 ≤ zoom)%Z →
  (weight 9007199254740991 (-52 + zoom) * weight 1 0
   = weight 9007199254740991 (zoom - 53) * weight 4503599627370496 (-51))%Z.
Proof.
  intros Hz.
  replace (-52 + zoom)%Z with (zoom - 53 + 1)%Z by (clear; lia).
  rewrite weight_exp_add by (clear -Hz; lia).
  change (Z.pos 4503599627370496) with (1 * 2 ^ 52)%Z.
  rewrite <- weight_shift by (clear; lia).
  change (-51 + 52)%Z with (0 + 1)%Z.
  rewrite (weight_exp_add 1 0 1) by (clear; lia).
  generalize (weight 9007199254740991 (zoom - 53)) (weight 1 0).
  intros; lia.
Qed.

(** [y_tile] when the logarithm the library returns is from
    [- mercator_limit] to [math.pi]. *)
Lemma y_tile_in_range l zoom :
  (0 ≤ zoom ≤ 1023)%Z →
  (- mercator_limit <=? l) = true → (l <=? Flt.math_pi) = true →
  (-1 <? two_pow zoom * (1 - l / Flt.math_pi) / 2) = true
  ∧ (two_pow zoom * (1 - l / Flt.math_pi) / 2 <? two_pow zoom) = true.
Proof.
  intros Hz Hlo Hhi. apply rounded_lt_two_pow; [exact Hz|].
  pose proof (one_minus _ (mercator_quotient l Hlo Hhi)) as Hq.
  apply (mul_two_pow _ zoom) in Hq;
    [|exact Hz|clear; lia|clear; lia|clear -Hz; lia].
  eapply (div_constant _ 2); [vm_compute; reflexivity| | |exact Hq].
  - apply valid_normal; [clear; lia|clear -Hz; lia].
  - rewrite weight_half by (clear -Hz; lia). apply Z.le_refl.
Qed.

(** C1 (amended): for [zoom] in [0..1023], a longitude from -180 up to
    the second double below 180 ([lon < lon_limit]), and a latitude at
    which the library's [tan] and [cos] are usable and its logarithm [l]
    is from [- mercator_limit] to [math.pi], the function returns [(x, y)]
    with [0 <= x < 2^zoom] and [0 <= y < 2^zoom]. *)
Theorem tile_indices_in_range lat lon zoom t c l :
  (0 ≤ zoom ≤ 1023)%Z →
  (-180 <=? lon) = true → (lon <? lon_limit) = true →
  c_tan libm (Math.radians lat) = t →
  c_cos libm (Math.radians lat) = c →
  c_log libm (t + 1 / c) = l →
  mercator_values_ok t c l = true →
  (- mercator_limit <=? l) = true → (l <=? Flt.math_pi) = true →
  ∃ x y,
    lat_lon_to_tile_indices libm lat lon zoom = Return (x, y)
    ∧ (0 ≤ x < 2 ^ zoom)%Z ∧ (0 ≤ y < 2 ^ zoom)%Z.
Proof.
  intros Hz Hlon1 Hlon2 Ht Hc Hl Hok Hl1 Hl2.
  destruct (x_tile_in_range lon zoom Hz Hlon1 Hlon2) as [Hx1 Hx2].
  destruct (y_tile_in_range l zoom Hz Hl1 Hl2) as [Hy1 Hy2].
  destruct (to_int_in_range _ zoom Hz Hx1 Hx2) as (x & Hxi & Hxr).
  destruct (to_int_in_range _ zoom Hz Hy1 Hy2) as (y & Hyi & Hyr).
  exists x, y. split; [|done].
  eapply lat_lon_to_tile_indices_value;
    [apply pow2_nonneg; lia| | |exact Hxi|exact Hyi].
  - unfold x_tile. by apply num_mul_two_pow.
  - rewrite (y_tile_value libm _ _ _ _ _ Ht Hc Hl Hok).
    rewrite num_mul_two_pow by done. cbn [mbind result_bind].
    by apply truediv_value.
Qed.
End tile_index_range.

Lemma tile_indices_in_range_witness :
  (∃ x y,
     lat_lon_to_tile_indices glibc lat_hamra lon_hamra 14 = Return (x, y)
     ∧ (0 ≤ x < 2 ^ 14)%Z ∧ (0 ≤ y < 2 ^ 14)%Z)
  ∧ (∃ x y,
       lat_lon_to_tile_indices glibc 0 (-180) 1023 = Return (x, y)
       ∧ (0 ≤ x < 2 ^ 1023)%Z ∧ (0 ≤ y < 2 ^ 1023)%Z).
Proof.
  split.
  - apply (tile_indices_in_range glibc lat_hamra lon_hamra 14
             0x1.57fc206f243bdp-1 0x1.a8fdbfd979e96p-1 0x1.424722cb2baadp-1);
      [lia|vm_compute; reflexivity..].
  - apply (tile_indices_in_range glibc 0 (-180) 1023 0 1 0);
      [lia|vm_compute; reflexivity..].
Defined.

(** The limits are the best ones: at [lon_limit], and at the logarithm
    one unit in the last place beyond [- mercator_limit], the products
    reach [2 ** zoom] (here for [zoom = 0]); one unit in the last place
    beyond [math.pi], [int(y_tile)] is negative from [zoom = 53] on. *)
Lemma range_limits_reached :
  x_tile lon_limit (inl 1%Z) ≫= Flt.to_int = Return 1%Z
  ∧ Flt.to_int
      (two_pow 0 * (1 - (- 0x1.921fb54442d17p+1) / Flt.math_pi) / 2)%float
    = Return 1%Z
  ∧ Flt.to_int
      (two_pow 53 * (1 - 0x1.921fb54442d19p+1 / Flt.math_pi) / 2)%float
    = Return (-1)%Z.
Proof. repeat split; vm_compute; reflexivity. Qed.
